(** * hfr_topic_analyzer: the paginated crawl engine of [parse_topic.py]

    A shallow embedding of [HfrPost] and [HfrCovid19] and the properties of
    its constructor, fetch operation, page-count discovery, post extractor
    and crawl orchestrator.

    Conventions of the embedding:
    - a Python [int] is a [Z]; a Python [str] is a [string] whose characters
      are the code points 0..255 (all the literals of the source, the
      accents and the non-breaking space included, lie in that range);
    - a raised exception is the [Raised] case of [result]; code that logs,
      sends requests or yields returns the events it produced, in order,
      next to its outcome (the monad [M]);
    - what the third-party libraries compute from data that is not in the
      repository (the HTTP server's answers, the order in which concurrent
      requests finish, the elements a CSS selector finds in a text) is a
      field of the record [World]. *)

From Stdlib Require Import ZArith String Ascii List Bool Lia Permutation.
Import ListNotations.

Local Open Scope string_scope.
Local Open Scope list_scope.
Local Open Scope Z_scope.

(** ** Python values and exceptions *)

Module Py.

(** The objects that can reach an [isinstance(x, int)] or
    [isinstance(x, str)] test.  [bool] is a subclass of [int] in Python:
    [True] and [False] pass [isinstance(x, int)] and compare as 1 and 0.
    [PyOther] stands for an object of any other class (a float, a list). *)
Inductive value : Type :=
| PyInt (z : Z)
| PyBool (b : bool)
| PyStr (s : string)
| PyNone
| PyOther (class_name : string).

Definition isinstance_int (v : value) : bool :=
  match v with
  | PyInt _ | PyBool _ => true
  | _ => false
  end.

Definition isinstance_str (v : value) : bool :=
  match v with
  | PyStr _ => true
  | _ => false
  end.

(** The integer an instance of [int] compares as. *)
Definition int_value (v : value) : option Z :=
  match v with
  | PyInt z => Some z
  | PyBool b => Some (if b then 1 else 0)
  | _ => None
  end.

(** [isinstance(v, int) and v > 0]; the comparison is only evaluated on
    instances of [int]. *)
Definition is_positive_int (v : value) : bool :=
  match int_value v with
  | Some z => 0 <? z
  | None => false
  end.

(** [isinstance(v, str) and v]: a string is truthy when it is not empty. *)
Definition is_nonempty_str (v : value) : bool :=
  match v with
  | PyStr s => negb (String.eqb s "")
  | _ => false
  end.

Inductive exn : Type :=
| AssertionError (msg : string)
| TypeError
| ValueError
| IndexError
| OverflowError
| ClientError (detail : string).

Inductive result (A : Type) : Type :=
| Ok (a : A)
| Raised (e : exn).
Arguments Ok {A} a.
Arguments Raised {A} e.

Definition rbind {A B} (r : result A) (k : A -> result B) : result B :=
  match r with
  | Ok a => k a
  | Raised e => Raised e
  end.

Definition rassert (b : bool) (msg : string) : result unit :=
  if b then Ok tt else Raised (AssertionError msg).

Fixpoint rmap {A B} (f : A -> result B) (l : list A) : result (list B) :=
  match l with
  | [] => Ok []
  | x :: l' =>
      rbind (f x) (fun y => rbind (rmap f l') (fun ys => Ok (y :: ys)))
  end.

Definition is_ok {A} (r : result A) : bool :=
  match r with Ok _ => true | Raised _ => false end.

End Py.
Import Py.

Declare Scope result_scope.
Delimit Scope result_scope with result.
Notation "x <- c ;; k" := (rbind c (fun x => k))
  (at level 61, c at next level, right associativity) : result_scope.
Notation "c ;; k" := (rbind c (fun _ => k))
  (at level 61, right associativity) : result_scope.

(** ** Characters and strings *)

Module Str.

(** The three non-ASCII characters of the source's literals. *)
Definition e_acute : ascii := "233"%char.
Definition a_grave : ascii := "224"%char.
Definition nbsp : ascii := "160"%char.

Definition chr (c : ascii) : string := String c "".

Definition is_ascii_digit (c : ascii) : bool :=
  let n := N_of_ascii c in ((48 <=? n) && (n <=? 57))%N.

(** [str.isdigit] on one character: the decimal digits and, in the range
    of the model, the superscripts two, three and one (U+00B2, U+00B3,
    U+00B9), which Unicode classes as digits. *)
Definition char_isdigit (c : ascii) : bool :=
  let n := N_of_ascii c in
  (is_ascii_digit c || (n =? 178) || (n =? 179) || (n =? 185))%N.

Fixpoint all_chars (p : ascii -> bool) (s : string) : bool :=
  match s with
  | "" => true
  | String c s' => p c && all_chars p s'
  end.

(** [s.isdigit()]: at least one character, and all of them digits. *)
Definition isdigit (s : string) : bool :=
  negb (String.eqb s "") && all_chars char_isdigit s.

Definition digit_value (c : ascii) : Z := Z.of_N (N_of_ascii c) - 48.

Fixpoint decimal_acc (acc : Z) (s : string) : Z :=
  match s with
  | "" => acc
  | String c s' => decimal_acc (10 * acc + digit_value c) s'
  end.

(** The greatest number of digits [int] converts: the interpreter's
    default limit ([sys.int_info.default_max_str_digits]), which counts the
    leading zeros too. *)
Definition max_str_digits : Z := 4300.

(** [int(s)] on the strings that reach it in the source, which have
    passed [isdigit] (so no sign, blank or underscore): the decimal value
    when every character is one of 0..9 and there are no more of them
    than the interpreter converts, [ValueError] otherwise. *)
Definition int (s : string) : result Z :=
  if negb (String.eqb s "") && all_chars is_ascii_digit s
     && (Z.of_nat (String.length s) <=? max_str_digits)
  then Ok (decimal_acc 0 s)
  else Raised ValueError.

End Str.

(** ** Events and the monad of effectful code *)

Inductive level : Type := INFO | WARNING.

(** [datetime.datetime]: the wall-clock fields and the attached zone
    ([None] for a naive value). *)
Record datetime : Type := mk_datetime {
  year : Z; month : Z; day : Z;
  hour : Z; minute : Z; second : Z;
  tzinfo : option string
}.

(** The dataclass [HfrPost].  A dataclass checks no field type, and [author]
    receives whatever [.html()] returned, which is [None] when the selector
    found nothing: the field is an [option string]. *)
Record HfrPost : Type := mk_HfrPost {
  author : option string;
  timestamp : datetime
}.

Inductive event : Type :=
| Log (lvl : level) (fmt : string) (args : list value)
| HttpGet (url : string) (params : list (string * value))
| Yield (post : HfrPost).

Definition M (A : Type) : Type := (list event * result A)%type.

Definition ret {A} (a : A) : M A := ([], Ok a).

Definition bind {A B} (m : M A) (k : A -> M B) : M B :=
  match m with
  | (t, Ok a) => let (t', r) := k a in (t ++ t', r)
  | (t, Raised e) => (t, Raised e)
  end.

Definition raise {A} (e : exn) : M A := ([], Raised e).
Definition emit (ev : event) : M unit := ([ev], Ok tt).
Definition lift {A} (r : result A) : M A := ([], r).

Definition assert_ (b : bool) (msg : string) : M unit := lift (rassert b msg).

Declare Scope m_scope.
Delimit Scope m_scope with M.
Notation "x <- c ;; k" := (bind c (fun x => k))
  (at level 61, c at next level, right associativity) : m_scope.
Notation "c ;; k" := (bind c (fun _ => k))
  (at level 61, right associativity) : m_scope.

(** A [for] loop whose body may raise. *)
Fixpoint for_each {A} (l : list A) (body : A -> M unit) : M unit :=
  match l with
  | [] => ret tt
  | x :: l' => (body x ;; for_each l' body)%M
  end.

Definition trace {A} (m : M A) : list event := fst m.
Definition outcome {A} (m : M A) : result A := snd m.

Fixpoint yielded (t : list event) : list HfrPost :=
  match t with
  | [] => []
  | Yield p :: t' => p :: yielded t'
  | _ :: t' => yielded t'
  end.

Fixpoint requests (t : list event) : list (string * list (string * value)) :=
  match t with
  | [] => []
  | HttpGet u ps :: t' => (u, ps) :: requests t'
  | _ :: t' => requests t'
  end.

Fixpoint logs (t : list event) : list (level * string * list value) :=
  match t with
  | [] => []
  | Log l f a :: t' => (l, f, a) :: logs t'
  | _ :: t' => logs t'
  end.

(** ** The world outside the repository *)

(** One element selected by [.messagetable], seen through the two
    sub-selections the extractor makes on it: the [.html()] of [.s2] and of
    [.toolbar .left], each [None] when the selector finds nothing. *)
Record MessageBlock : Type := mk_MessageBlock {
  s2_html : option string;
  toolbar_left_html : option string
}.

(** The libraries are taken as functions: a request has an outcome, and
    the markup library, given a text, returns the elements it selects
    without raising. *)
Record World : Type := mk_World {
  (** The outcome of [retry_client.get(url, params=params)] followed by
      [resp.text()], retries included: the body, or the exception that
      comes out once the retry budget is spent.  The first argument tells
      the requests of a crawl apart in time: 0 for the page-count
      discovery, k for the k-th group of pages. *)
  http_get : nat -> string -> list (string * value) -> result string;
  (** The order in which the requests of a group finish. *)
  completion : nat -> list value -> list value;
  (** [pyquery.PyQuery(content)(".messagetable").items()]. *)
  messagetable : string -> list MessageBlock;
  (** The [.html()] of every element of
      [pyquery.PyQuery(content)(".fondForum2PagesHaut .cHeader")]. *)
  page_headers : string -> list string
}.

(** ** Built-ins and library functions used by the source *)

(** [range(lo, hi)]. *)
Definition range (lo hi : Z) : list Z :=
  map (fun i => lo + Z.of_nat i) (seq 0 (Z.to_nat (hi - lo))).

(** [enumerate(l)]. *)
Definition enumerate {A} (l : list A) : list (nat * A) :=
  combine (seq 0 (length l)) l.

(** [l[idx]]. *)
Definition index {A} (l : list A) (idx : nat) : result A :=
  match nth_error l idx with
  | Some a => Ok a
  | None => Raised IndexError
  end.

(** [max(l)] on a list known to be non-empty, headed by [x]. *)
Definition max_of (x : Z) (l : list Z) : Z := fold_left Z.max l x.

(** [more_itertools.chunked(l, n)]: [take(n, it)] repeated until it returns
    an empty list.  Every round but the last consumes at least one element,
    so [length l] rounds are always enough. *)
Fixpoint chunked_fuel {A} (fuel : nat) (l : list A) (n : nat) : list (list A) :=
  match fuel with
  | O => []
  | S fuel' =>
      match firstn n l with
      | [] => []
      | chunk => chunk :: chunked_fuel fuel' (skipn n l) n
      end
  end.

Definition chunked {A} (l : list A) (n : nat) : list (list A) :=
  chunked_fuel (length l) l n.

(** *** The regular expression of the timestamp *)

Module Re.

(** The pattern uses two kinds of atoms: a literal character and the
    class [[0-9]] (the ten ASCII digits, whatever the flags). *)
Inductive atom : Type :=
| Lit (c : ascii)
| Digit.

Definition atom_matches (a : atom) (c : ascii) : bool :=
  match a with
  | Lit c' => Ascii.eqb c' c
  | Digit => Str.is_ascii_digit c
  end.

(** Matches a sequence of atoms at the start of [s]: the matched text and
    what follows it. *)
Fixpoint match_atoms (p : list atom) (s : string) : option (string * string) :=
  match p with
  | [] => Some ("", s)
  | a :: p' =>
      match s with
      | "" => None
      | String c s' =>
          if atom_matches a c then
            match match_atoms p' s' with
            | Some (m, rest) => Some (String c m, rest)
            | None => None
            end
          else None
      end
  end.

Definition lit (s : string) : list atom := map Lit (list_ascii_of_string s).

(** ["Posté le "] *)
Definition prefix : list atom :=
  lit "Post" ++ [Lit Str.e_acute] ++ lit " le ".
(** [[0-9]{2}-[0-9]{2}-[0-9]{4}] *)
Definition date : list atom :=
  [Digit; Digit; Lit "-"; Digit; Digit; Lit "-"; Digit; Digit; Digit; Digit]%char.
(** [\xa0à\xa0] *)
Definition infix : list atom := [Lit Str.nbsp; Lit Str.a_grave; Lit Str.nbsp].
(** [[0-9]{2}:[0-9]{2}:[0-9]{2}] *)
Definition time : list atom :=
  [Digit; Digit; Lit ":"; Digit; Digit; Lit ":"; Digit; Digit]%char.

(** The whole pattern at the start of [s]: the groups [date] and [time]. *)
Definition match_here (s : string) : option (string * string) :=
  match match_atoms prefix s with
  | None => None
  | Some (_, s1) =>
      match match_atoms date s1 with
      | None => None
      | Some (d, s2) =>
          match match_atoms infix s2 with
          | None => None
          | Some (_, s3) =>
              match match_atoms time s3 with
              | None => None
              | Some (t, _) => Some (d, t)
              end
          end
      end
  end.

(** [re.search]: the leftmost position where the pattern matches. *)
Fixpoint search (s : string) : option (string * string) :=
  match match_here s with
  | Some g => Some g
  | None =>
      match s with
      | "" => None
      | String _ s' => search s'
      end
  end.

End Re.

(** *** [datetime.strptime] and [pytz] *)

Module Time.

Definition is_leap (y : Z) : bool :=
  (y mod 4 =? 0) && (negb (y mod 100 =? 0) || (y mod 400 =? 0)).

Definition days_in_month (y m : Z) : Z :=
  if m =? 2 then (if is_leap y then 29 else 28)
  else if (m =? 4) || (m =? 6) || (m =? 9) || (m =? 11) then 30
  else 31.

(** Exactly [n] ASCII digits at the start of [s], as a number. *)
Fixpoint digits (n : nat) (acc : Z) (s : string) : option (Z * string) :=
  match n with
  | O => Some (acc, s)
  | S n' =>
      match s with
      | "" => None
      | String c s' =>
          if Str.is_ascii_digit c
          then digits n' (10 * acc + Str.digit_value c) s'
          else None
      end
  end.

Definition expect (c : ascii) (s : string) : option string :=
  match s with
  | String c' s' => if Ascii.eqb c c' then Some s' else None
  | "" => None
  end.

Definition obind {A B} (o : option A) (k : A -> option B) : option B :=
  match o with Some a => k a | None => None end.

(** The six numbers of a text of the shape [dd-dd-dddd dd:dd:dd]. *)
Definition fields (s : string) : option (Z * Z * Z * Z * Z * Z) :=
  obind (digits 2 0 s) (fun '(d, s) =>
  obind (expect "-" s) (fun s =>
  obind (digits 2 0 s) (fun '(m, s) =>
  obind (expect "-" s) (fun s =>
  obind (digits 4 0 s) (fun '(y, s) =>
  obind (expect " " s) (fun s =>
  obind (digits 2 0 s) (fun '(H, s) =>
  obind (expect ":" s) (fun s =>
  obind (digits 2 0 s) (fun '(Mi, s) =>
  obind (expect ":" s) (fun s =>
  obind (digits 2 0 s) (fun '(Se, s) =>
  if String.eqb s "" then Some (d, m, y, H, Mi, Se) else None))))))))))).

(** What the directives accept on two-digit fields: [%d] 01..31, [%m]
    01..12, [%H] 00..23, [%M] 00..59, [%S] 00..61. *)
Definition directives_accept (d m H Mi Se : Z) : bool :=
  (1 <=? d) && (d <=? 31) && (1 <=? m) && (m <=? 12)
  && (H <=? 23) && (Mi <=? 59) && (Se <=? 61).

(** What the [datetime] constructor accepts of the values that passed
    the directives: a year from 1 on, a day that exists in the month, and
    no leap second. *)
Definition constructor_accepts (y m d Se : Z) : bool :=
  (1 <=? y) && (d <=? days_in_month y m) && (Se <=? 59).

(** [datetime.datetime.strptime(s, "%d-%m-%Y %H:%M:%S")] on the texts the
    source passes to it, whose fields have their full width ([s] is built
    from the two groups of the pattern above); every rejection is a
    [ValueError]. *)
Definition strptime (s : string) : result datetime :=
  match fields s with
  | None => Raised ValueError
  | Some (d, m, y, H, Mi, Se) =>
      if directives_accept d m H Mi Se && constructor_accepts y m d Se
      then Ok (mk_datetime y m d H Mi Se None)
      else Raised ValueError
  end.

Definition PARIS_TZ : string := "Europe/Paris".

(** The first and the last day a [datetime] can hold: 0001-01-01 and
    9999-12-31. *)
Definition on_edge_day (dt : datetime) : bool :=
  ((year dt =? 1) && (month dt =? 1) && (day dt =? 1))
  || ((year dt =? 9999) && (month dt =? 12) && (day dt =? 31)).

(** [tz.localize(dt)]: refuses a value that has a zone already; looks for
    the zone's offset at the wall-clock times one day before and one day
    after [dt], which is an [OverflowError] when one of them is not a
    [datetime] any more; and attaches the zone.  The offset from UTC that
    pytz picks comes from its zone database and is not modelled. *)
Definition localize (tz : string) (dt : datetime) : result datetime :=
  match tzinfo dt with
  | Some _ => Raised ValueError
  | None =>
      if on_edge_day dt then Raised OverflowError
      else Ok (mk_datetime (year dt) (month dt) (day dt)
                           (hour dt) (minute dt) (second dt) (Some tz))
  end.

End Time.

(** ** The class [HfrCovid19] *)

(** The fields of [aiohttp_retry.ExponentialRetry] that the source sets to
    integers; [attempts] is the only one it reads back. *)
Record ExponentialRetry : Type := mk_ExponentialRetry {
  attempts : Z;
  start_timeout : Z;
  statuses : list Z
}.

Record HfrCovid19 : Type := mk_HfrCovid19 {
  cat : value;
  sub_cat : value;
  post : value;
  _retry_options : ExponentialRetry
}.

Definition default_cat : value := PyInt 13.
Definition default_sub_cat : value := PyInt 422.
Definition default_post : value := PyInt 118532.

(** The constructor: three assertions, then the fields, the retry policy
    and the client (which sends nothing when it is built), then one log
    line. *)
Definition __init__ (cat sub_cat post : value) : M HfrCovid19 :=
  (assert_ (is_positive_int cat) "cat parameter must be a positive integer" ;;
   assert_ (is_positive_int sub_cat) "sub_cat parameter must be a positive integer" ;;
   assert_ (is_positive_int post) "post parameter must be a positive integer" ;;
   let self :=
     mk_HfrCovid19 cat sub_cat post (mk_ExponentialRetry 3 1 (range 400 600)) in
   emit (Log INFO "Initialized on cat=%d, subcat=%d, post=%d" [cat; sub_cat; post]) ;;
   ret self)%M.

Definition retry_format : string := "Retrying %s at %s (%d/%d)".

(** The hook the client calls before each attempt of a request, with the
    number of the attempt in the trace context. *)
Definition _on_request_start (self : HfrCovid19) (current_attempt : Z)
    (method url : string) : M unit :=
  if 1 <? current_attempt then
    if attempts (_retry_options self) <=? current_attempt then
      emit (Log INFO retry_format
              [PyStr method; PyStr url; PyInt current_attempt;
               PyInt (attempts (_retry_options self))])
    else
      emit (Log WARNING retry_format
              [PyStr method; PyStr url; PyInt current_attempt;
               PyInt (attempts (_retry_options self))])
  else ret tt.

Definition page_url : string := "https://forum.hardware.fr/forum2.php".

Definition page_params (self : HfrCovid19) (number : value)
    : list (string * value) :=
  [("config", PyStr "hfr.inc"); ("cat", cat self); ("subcat", sub_cat self);
   ("post", post self); ("page", number)].

(** [get_page_content] is a coroutine: it runs to the point where the
    request is sent, and resumes when the answer is there.  The two halves
    are kept apart because [asyncio.gather] interleaves them. *)
Definition get_page_content_send (self : HfrCovid19) (number : value) : M unit :=
  (assert_ (is_positive_int number) "number parameter must be a positive integer" ;;
   emit (HttpGet page_url (page_params self number)))%M.

Definition get_page_content_resume (w : World) (self : HfrCovid19)
    (round : nat) (number : value) : M string :=
  (text <- lift (http_get w round page_url (page_params self number)) ;;
   emit (Log INFO "Returned HTML page %d content" [number]) ;;
   ret text)%M.

Definition get_page_content (w : World) (self : HfrCovid19) (round : nat)
    (number : value) : M string :=
  (get_page_content_send self number ;;
   get_page_content_resume w self round number)%M.

(** The list comprehension converts the labels that pass [isdigit] one
    after the other; the first conversion that raises ends it. *)
Definition get_total_page_count (w : World) (self : HfrCovid19) : M Z :=
  (page_1 <- get_page_content w self 0%nat (PyInt 1) ;;
   let page_headers_values := page_headers w page_1 in
   page_headers_page_count <-
     lift (rmap Str.int (filter Str.isdigit page_headers_values)) ;;
   match page_headers_page_count with
   | [] =>
       raise (AssertionError
                "Unable to parse .fondForum2PagesHaut .cHeader to extract max page number")
   | x :: l =>
       let max_page := max_of x l in
       emit (Log INFO "Topic has %d pages" [PyInt max_page]) ;;
       ret max_page
   end)%M.

(** The author of the forum's advertisement blocks. *)
Definition advertisement : string :=
  ("Publicit" ++ Str.chr Str.e_acute)%string.

(** [author == advertisement]; [None] is equal to no string. *)
Definition is_advertisement (author : option string) : bool :=
  match author with
  | Some a => String.eqb a advertisement
  | None => false
  end.

(** The body of the loop of [parse_page] on one block: [None] for
    [continue], the record to append otherwise. *)
Definition parse_post (post : MessageBlock) : result (option HfrPost) :=
  let author := s2_html post in
  if is_advertisement author then Ok None
  else
    match toolbar_left_html post with
    | None => Raised TypeError
    | Some timestamp_raw =>
        match Re.search timestamp_raw with
        | None => Raised (AssertionError "Unable to parse post timestap")
        | Some (date, time) =>
            (timestamp_naive <-
               Time.strptime (date ++ " " ++ time)%string ;;
             timestamp <- Time.localize Time.PARIS_TZ timestamp_naive ;;
             Ok (Some (mk_HfrPost author timestamp)))%result
        end
    end.

(** The loop of [parse_page], with the list [res] it appends to. *)
Fixpoint parse_posts (posts : list MessageBlock) (res : list HfrPost)
    : result (list HfrPost) :=
  match posts with
  | [] => Ok res
  | post :: posts' =>
      (r <- parse_post post ;;
       match r with
       | None => parse_posts posts' res
       | Some p => parse_posts posts' (res ++ [p])
       end)%result
  end.

Definition parse_page (w : World) (content : value) : result (list HfrPost) :=
  (rassert (is_nonempty_str content) "content parameter must be a non-empty string" ;;
   match content with
   | PyStr text => parse_posts (messagetable w text) []
   | _ => Raised TypeError
   end)%result.

(** [asyncio.gather] on a group of coroutines: every coroutine is
    started, in order; they resume in the order their answers arrive and
    the first exception is raised at once; otherwise the results come back
    in the order of the arguments.  (The orchestrator only passes positive
    page numbers, so no coroutine stops at its assertion.) *)
Definition gather (w : World) (self : HfrCovid19) (round : nat)
    (numbers : list value) : M (list string) :=
  (for_each numbers (get_page_content_send self) ;;
   for_each (completion w round numbers)
     (fun number => _ <- get_page_content_resume w self round number ;; ret tt) ;;
   lift (rmap (fun number => http_get w round page_url (page_params self number))
              numbers))%M.

(** The generator, run to its end by a consumer that takes every record.
    A coroutine object that has not started is represented by its
    argument, and each group comes with its position in the crawl, which
    the world needs to tell the requests apart. *)
Definition parse_all_pages (w : World) (self : HfrCovid19) : M unit :=
  (max_page <- get_total_page_count w self ;;
   let coros := map (fun page => (page, PyInt page)) (range 1 (max_page + 1)) in
   let chunks := chunked coros 100 in
   for_each (combine (seq 1 (length chunks)) chunks)
     (fun '(round, pages_coros_chunk) =>
        let pages_number_chunk := map fst pages_coros_chunk in
        let coros_chunk := map snd pages_coros_chunk in
        pages_content <- gather w self round coros_chunk ;;
        for_each (enumerate pages_content)
          (fun '(idx, page_content) =>
             posts <- lift (parse_page w (PyStr page_content)) ;;
             page <- lift (index pages_number_chunk idx) ;;
             emit (Log INFO "Got %d post for page %d"
                     [PyInt (Z.of_nat (length posts)); PyInt page]) ;;
             for_each posts (fun post => emit (Yield post)))))%M.

(** ** Notions used in the statements *)

(** A positive integer, as the source tests it: an instance of [int]
    (which [True] is, with value 1) that is greater than 0. *)
Inductive positive_integer : value -> Prop :=
| positive_int (z : Z) : 0 < z -> positive_integer (PyInt z)
| positive_true : positive_integer (PyBool true).

(** The retry policy every crawler is built with. *)
Definition retry_policy : ExponentialRetry :=
  mk_ExponentialRetry 3 1 (range 400 600).

(** The crawler of the script: [HfrCovid19(cat=13, sub_cat=422, post=118532)]. *)
Definition default_crawler : HfrCovid19 :=
  mk_HfrCovid19 default_cat default_sub_cat default_post retry_policy.

(** The event a retry is reported with. *)
Definition retry_event (lvl : level) (self : HfrCovid19) (N : Z)
    (method url : string) : event :=
  Log lvl retry_format
    [PyStr method; PyStr url; PyInt N; PyInt (attempts (_retry_options self))].

(** The severity rule of the specification: informational below the
    maximum, warning from the maximum on. *)
Definition severity_escalates : Prop :=
  forall (self : HfrCovid19) (N : Z) (method url : string),
    1 < N ->
    exists lvl,
      _on_request_start self N method url
        = ([retry_event lvl self N method url], Ok tt)
      /\ (N < attempts (_retry_options self) -> lvl = INFO)
      /\ (attempts (_retry_options self) <= N -> lvl = WARNING).

(** The toolbar text of the specification's example: the words, the date
    and the time, separated by non-breaking spaces around the preposition. *)
Definition toolbar_example : string :=
  ("Post" ++ Str.chr Str.e_acute ++ " le 15-03-2020" ++ Str.chr Str.nbsp
   ++ Str.chr Str.a_grave ++ Str.chr Str.nbsp ++ "14:30:05")%string.

(** 2020-03-15 14:30:05, naive and in the zone of Paris. *)
Definition instant_example_naive : datetime :=
  mk_datetime 2020 3 15 14 30 5 None.
Definition instant_example : datetime :=
  mk_datetime 2020 3 15 14 30 5 (Some "Europe/Paris").

(** A wall-clock time with a full date and a time to the second. *)
Definition full_resolution (dt : datetime) : Prop :=
  1 <= year dt <= 9999 /\ 1 <= month dt <= 12
  /\ 1 <= day dt <= Time.days_in_month (year dt) (month dt)
  /\ 0 <= hour dt <= 23 /\ 0 <= minute dt <= 59 /\ 0 <= second dt <= 59.

Definition in_paris (dt : datetime) : Prop := tzinfo dt = Some "Europe/Paris".

(** The author is a text and the text is not empty. *)
Definition author_nonempty (p : HfrPost) : Prop :=
  exists a, author p = Some a /\ a <> "".

(** The blocks that are not advertisements. *)
Definition is_message (b : MessageBlock) : bool :=
  negb (is_advertisement (s2_html b)).

(** The invariant of the data model, as the specification words it. *)
Definition record_invariant_as_specified : Prop :=
  forall (w : World) (content : value) (posts : list HfrPost) (p : HfrPost),
    parse_page w content = Ok posts -> In p posts ->
    author_nonempty p /\ in_paris (timestamp p) /\ full_resolution (timestamp p).

(** *** Example pages

    A few small pages and the elements the selectors find in them.
    [page_example] announces 10 pages and has one message by [toto] and
    one advertisement; [page_long_topic] announces 250 pages and has the
    message alone; in [page_empty_author] the author element of the only
    message is empty; in [page_bad_toolbar] the toolbar of the only message
    does not hold the expected phrase; [page_superscript] has a pagination
    header with the labels 5 and superscript two. *)

Definition toolbar_markup : string :=
  "<div class='toolbar'><div class='left'>Post&eacute; le 15-03-2020&nbsp;&agrave;&nbsp;14:30:05</div></div>".

Definition pagination_markup : string :=
  "<div class='fondForum2PagesHaut'><b class='cHeader'>1</b><b class='cHeader'>2</b><b class='cHeader'>10</b><b class='cHeader'>Prev</b></div>".

Definition page_example : string :=
  (pagination_markup
   ++ "<table class='messagetable'><tr><td><b class='s2'>toto</b></td><td>"
   ++ toolbar_markup ++ "</td></tr></table>"
   ++ "<table class='messagetable'><tr><td><b class='s2'>Publicit&eacute;</b></td></tr></table>")%string.

Definition page_empty_author : string :=
  ("<table class='messagetable'><tr><td><b class='s2'></b></td><td>"
   ++ toolbar_markup ++ "</td></tr></table>")%string.

Definition page_bad_toolbar : string :=
  "<table class='messagetable'><tr><td><b class='s2'>toto</b></td><td><div class='toolbar'><div class='left'>hier</div></div></td></tr></table>".

Definition block_toto : MessageBlock :=
  mk_MessageBlock (Some "toto") (Some toolbar_example).
Definition block_advertisement : MessageBlock :=
  mk_MessageBlock (Some advertisement) None.
Definition block_empty_author : MessageBlock :=
  mk_MessageBlock (Some "") (Some toolbar_example).
Definition block_bad_toolbar : MessageBlock :=
  mk_MessageBlock (Some "toto") (Some "hier").

Definition page_superscript : string :=
  "<div class='fondForum2PagesHaut'><b class='cHeader'>5</b><b class='cHeader'>&sup2;</b></div>".

Definition page_long_topic : string :=
  ("<div class='fondForum2PagesHaut'><b class='cHeader'>1</b><b class='cHeader'>2</b><b class='cHeader'>250</b><b class='cHeader'>Prev</b></div>"
   ++ "<table class='messagetable'><tr><td><b class='s2'>toto</b></td><td>"
   ++ toolbar_markup ++ "</td></tr></table>")%string.

Definition example_messagetable (text : string) : list MessageBlock :=
  if String.eqb text page_example then [block_toto; block_advertisement]
  else if String.eqb text page_long_topic then [block_toto]
  else if String.eqb text page_empty_author then [block_empty_author]
  else if String.eqb text page_bad_toolbar then [block_bad_toolbar]
  else [].

Definition example_page_headers (text : string) : list string :=
  if String.eqb text page_example then ["1"; "2"; "10"; "Prev"]
  else if String.eqb text page_long_topic then ["1"; "2"; "250"; "Prev"]
  else if String.eqb text page_superscript then ["5"; Str.chr "178"%char]
  else [].

(** A server that answers every request with the same page; the requests
    of a group finish in the reverse of the order they were sent in. *)
Definition world_serving (page : string) : World :=
  mk_World (fun _ _ _ => Ok page) (fun _ l => rev l)
           example_messagetable example_page_headers.

Definition example_world : World := world_serving page_example.

(** The same server, except that the request for page 3 fails for good. *)
Definition is_page_3 (params : list (string * value)) : bool :=
  match params with
  | [_; _; _; _; (_, PyInt p)] => p =? 3
  | _ => false
  end.

Definition failing_world : World :=
  mk_World (fun _ _ params =>
              if is_page_3 params then Raised (ClientError "503") else Ok page_example)
           (fun _ l => rev l) example_messagetable example_page_headers.

(** The same server, except that page 3 arrives with a toolbar that does
    not hold the expected phrase. *)
Definition bad_page_world : World :=
  mk_World (fun _ _ params =>
              if is_page_3 params then Ok page_bad_toolbar else Ok page_example)
           (fun _ l => rev l) example_messagetable example_page_headers.

Definition post_toto : HfrPost := mk_HfrPost (Some "toto") instant_example.

(** *** The crawl, page by page *)

(** The answer to the request for page [p] sent in round [k]. *)
Definition fetch (w : World) (self : HfrCovid19) (k : nat) (p : Z) : result string :=
  http_get w k page_url (page_params self (PyInt p)).

(** The round in which the orchestrator asks for page [p]: the first
    hundred pages in round 1, the next hundred in round 2, and so on. *)
Definition round_of (p : Z) : nat := S (Z.to_nat ((p - 1) / 100)).

(** The groups of page numbers of a topic of [max_page] pages. *)
Definition groups (max_page : Z) : list (list Z) :=
  chunked (range 1 (max_page + 1)) 100.

(** Fetching page [p] and extracting its records, as one outcome. *)
Definition page_outcome (w : World) (self : HfrCovid19) (p : Z)
    : result (list HfrPost) :=
  (text <- fetch w self (round_of p) p ;; parse_page w (PyStr text))%result.

Definition page_posts (w : World) (self : HfrCovid19) (p : Z) : list HfrPost :=
  match page_outcome w self p with
  | Ok posts => posts
  | Raised _ => []
  end.

Definition page_text (w : World) (self : HfrCovid19) (p : Z) : string :=
  match fetch w self (round_of p) p with
  | Ok text => text
  | Raised _ => ""
  end.

(** Page [p] fails with [e], at the fetch or at the extraction. *)
Definition page_failure (w : World) (self : HfrCovid19) (p : Z) (e : exn) : Prop :=
  page_outcome w self p = Raised e.

Definition page_good (w : World) (self : HfrCovid19) (p : Z) : Prop :=
  exists posts, page_outcome w self p = Ok posts.

(** Every request of a group finishes, once. *)
Definition completes (w : World) : Prop :=
  forall (k : nat) (numbers : list value),
    Permutation (completion w k numbers) numbers.

(** The events of one group when nothing fails: the requests, in the order
    of the pages; the answers, in the order they arrive; then, page after
    page, the log line and the records. *)
Definition group_trace (w : World) (self : HfrCovid19) (k : nat) (g : list Z)
    : list event :=
  map (fun p => HttpGet page_url (page_params self (PyInt p))) g
  ++ map (fun number => Log INFO "Returned HTML page %d content" [number])
         (completion w k (map PyInt g))
  ++ flat_map (fun p =>
                 Log INFO "Got %d post for page %d"
                   [PyInt (Z.of_nat (length (page_posts w self p))); PyInt p]
                 :: map Yield (page_posts w self p)) g.

Definition crawl_trace (w : World) (self : HfrCovid19) (max_page : Z)
    : list event :=
  concat (map (fun '(k, g) => group_trace w self k g)
              (combine (seq 1 (length (groups max_page))) (groups max_page))).

(** [l1] is the beginning of [l2]. *)
Definition prefix_of {A} (l1 l2 : list A) : Prop := exists rest, l2 = l1 ++ rest.

(** A world with the same markup library as [w] whose server gives the
    same answer as the one of [w] to the request of the discovery and
    wherever the answer was a page the crawl of [w] could use; it may
    answer differently where [w] failed. *)
Definition repairs (w w' : World) (self : HfrCovid19) : Prop :=
  messagetable w' = messagetable w /\ page_headers w' = page_headers w
  /\ fetch w' self 0 1 = fetch w self 0 1
  /\ forall p posts, page_outcome w self p = Ok posts ->
                     fetch w' self (round_of p) p = fetch w self (round_of p) p.

(** *** The shape of a failure *)

(** The last page of the groups before the group of page [p]. *)
Definition group_start (p : Z) : Z := 100 * ((p - 1) / 100).

(** The request for page [p] fails with [e]. *)
Definition fetch_fails (w : World) (self : HfrCovid19) (p : Z) (e : exn) : Prop :=
  fetch w self (round_of p) p = Raised e.

(** Page [p] arrives and its extraction fails with [e]. *)
Definition extraction_fails (w : World) (self : HfrCovid19) (p : Z) (e : exn)
    : Prop :=
  exists text, fetch w self (round_of p) p = Ok text
               /\ parse_page w (PyStr text) = Raised e.

(** Every page of the group of [p] arrives. *)
Definition group_fetched (w : World) (self : HfrCovid19) (max_page p : Z) : Prop :=
  forall q, group_start p < q <= group_start p + 100 -> q <= max_page ->
            exists text, fetch w self (round_of q) q = Ok text.

(** The specification's account of what a failed crawl has yielded: the
    records of the groups completed before the group of the page that
    failed. *)
Definition completed_groups_only : Prop :=
  forall (w : World) (self : HfrCovid19) (max_page : Z) (t0 : list event)
         (f : Z) (e : exn),
    completes w ->
    get_total_page_count w self = (t0, Ok max_page) ->
    1 <= f <= max_page -> page_failure w self f e ->
    outcome (parse_all_pages w self) = Raised e ->
    yielded (trace (parse_all_pages w self))
    = flat_map (page_posts w self) (range 1 (group_start f + 1)).

(** *** The loops of the orchestrator, named

    [parse_all_pages] is their composition ([parse_all_pages_unfold]). *)

Definition coros_of (lo hi : Z) : list (Z * value) :=
  map (fun page => (page, PyInt page)) (range lo hi).

Definition emit_page (w : World) (pages_number_chunk : list Z)
    (idx_content : nat * string) : M unit :=
  let '(idx, page_content) := idx_content in
  (posts <- lift (parse_page w (PyStr page_content)) ;;
   page <- lift (index pages_number_chunk idx) ;;
   emit (Log INFO "Got %d post for page %d"
           [PyInt (Z.of_nat (length posts)); PyInt page]) ;;
   for_each posts (fun post => emit (Yield post)))%M.

Definition process_group (w : World) (self : HfrCovid19)
    (round_chunk : nat * list (Z * value)) : M unit :=
  let '(round, pages_coros_chunk) := round_chunk in
  (pages_content <- gather w self round (map snd pages_coros_chunk) ;;
   for_each (enumerate pages_content)
            (emit_page w (map fst pages_coros_chunk)))%M.

Definition run_groups (w : World) (self : HfrCovid19) (round : nat)
    (chunks : list (list (Z * value))) : M unit :=
  for_each (combine (seq round (length chunks)) chunks) (process_group w self).

(** What the orchestrator does with one page whose text it holds. *)
Definition page_step (w : World) (self : HfrCovid19) (p : Z) : M unit :=
  (posts <- lift (parse_page w (PyStr (page_text w self p))) ;;
   emit (Log INFO "Got %d post for page %d"
           [PyInt (Z.of_nat (length posts)); PyInt p]) ;;
   for_each posts (fun post => emit (Yield post)))%M.

Definition page_events (w : World) (self : HfrCovid19) (p : Z) : list event :=
  Log INFO "Got %d post for page %d"
    [PyInt (Z.of_nat (length (page_posts w self p))); PyInt p]
  :: map Yield (page_posts w self p).

Definition groups_from (lo hi : Z) : list (list Z) := chunked (range lo hi) 100.

Definition crawl_trace_from (w : World) (self : HfrCovid19) (round : nat)
    (lo hi : Z) : list event :=
  concat (map (fun '(k, g) => group_trace w self k g)
              (combine (seq round (length (groups_from lo hi)))
                       (groups_from lo hi))).

(** ** Notions used in the further properties *)

(** A text that the atoms describe, character by character. *)
Fixpoint atoms_match (p : list Re.atom) (m : string) : Prop :=
  match p, m with
  | [], "" => True
  | a :: p', String c m' => Re.atom_matches a c = true /\ atoms_match p' m'
  | _, _ => False
  end.

(** The phrase of the toolbar around a date and a time. *)
Definition phrase (date time : string) : string :=
  ("Post" ++ Str.chr Str.e_acute ++ " le " ++ date
   ++ Str.chr Str.nbsp ++ Str.chr Str.a_grave ++ Str.chr Str.nbsp ++ time)%string.

(** The fixed parts of the phrase. *)
Definition prefix_text : string := ("Post" ++ Str.chr Str.e_acute ++ " le ")%string.
Definition infix_text : string :=
  (Str.chr Str.nbsp ++ Str.chr Str.a_grave ++ Str.chr Str.nbsp)%string.

(** The numbers of a date that exists and of a time of the day. *)
Definition real_instant (y m d H Mi Se : Z) : Prop :=
  1 <= y /\ 1 <= m <= 12 /\ 1 <= d <= Time.days_in_month y m
  /\ H <= 23 /\ Mi <= 59 /\ Se <= 59.

(** The first and the last day of the calendar of [datetime]. *)
Definition edge_day (y m d : Z) : Prop :=
  (y = 1 /\ m = 1 /\ d = 1) \/ (y = 9999 /\ m = 12 /\ d = 31).

(** [p] is the record of the block [b]. *)
Definition record_of (b : MessageBlock) (p : HfrPost) : Prop :=
  parse_post b = Ok (Some p).

(** What the data model can rely on in a record. *)
Definition good_record (p : HfrPost) : Prop :=
  in_paris (timestamp p) /\ full_resolution (timestamp p)
  /\ is_advertisement (author p) = false.

(** A request for a page of the crawler's own topic, numbered from 1 to
    [bound]. *)
Definition own_request (self : HfrCovid19) (bound : Z)
    (r : string * list (string * value)) : Prop :=
  fst r = page_url
  /\ exists p, 1 <= p <= bound /\ snd r = page_params self (PyInt p).

(** The events a crawl may produce: requests of its own, and good records. *)
Definition crawl_event (self : HfrCovid19) (bound : Z) (ev : event) : Prop :=
  match ev with
  | HttpGet u ps => own_request self bound (u, ps)
  | Yield p => good_record p
  | Log _ _ _ => True
  end.

(** The highest page a crawl may ask for: the page count when the discovery
    found one, and in any case page 1, which the discovery itself asks for. *)
Definition page_bound (w : World) (self : HfrCovid19) : Z :=
  match outcome (get_total_page_count w self) with
  | Ok max_page => Z.max 1 max_page
  | Raised _ => 1
  end.

(** The request for page [p] of the crawler's topic. *)
Definition request_for (self : HfrCovid19) (p : Z)
    : string * list (string * value) :=
  (page_url, page_params self (PyInt p)).

(** The world [w] with another order of arrival of the answers. *)
Definition with_completion (w : World)
    (c : nat -> list value -> list value) : World :=
  mk_World (http_get w) c (messagetable w) (page_headers w).

(** What a consumer sees of a crawl: the records, and whether it ended
    with an exception. *)
Definition same_view (m1 m2 : M unit) : Prop :=
  yielded (trace m1) = yielded (trace m2)
  /\ is_ok (outcome m1) = is_ok (outcome m2).

(** ** The script: [close] and [main]

    The script builds the crawler, opens a workbook, writes one row per
    record as the records come, logs a count, and closes the workbook and
    the client whatever happened.  Its events are those of the crawler and
    those of its own: the lines of the root logger, the calls to the
    workbook and the closing of the HTTP client. *)

Inductive host_event : Type :=
| OfCrawler (ev : event)
| RootLog (lvl : level) (fmt : string) (args : list value)
| WorkbookOpen (path : string)
| WorksheetWrite (row col : Z) (v : value)
| WorkbookClose
| ClientClose.

Definition Host (A : Type) : Type := (list host_event * result A)%type.

Definition hret {A} (a : A) : Host A := ([], Ok a).

Definition hbind {A B} (m : Host A) (k : A -> Host B) : Host B :=
  match m with
  | (t, Ok a) => let (t', r) := k a in (t ++ t', r)
  | (t, Raised e) => (t, Raised e)
  end.

Definition hraise {A} (e : exn) : Host A := ([], Raised e).
Definition hemit (ev : host_event) : Host unit := ([ev], Ok tt).

(** Code of the crawler, run by the script. *)
Definition of_crawler {A} (m : M A) : Host A := (map OfCrawler (trace m), outcome m).

Declare Scope h_scope.
Delimit Scope h_scope with H.
Notation "x <- c ;; k" := (hbind c (fun x => k))
  (at level 61, c at next level, right associativity) : h_scope.
Notation "c ;; k" := (hbind c (fun _ => k))
  (at level 61, right associativity) : h_scope.

(** [try: body finally: fin]: [fin] runs after [body] whatever the outcome
    of [body], which stays the outcome of the whole unless [fin] raises. *)
Definition try_finally {A} (body : Host A) (fin : Host unit) : Host A :=
  match body, fin with
  | (t, r), (tf, Ok _) => (t ++ tf, r)
  | (t, _), (tf, Raised e) => (t ++ tf, Raised e)
  end.

(** The events of a generator as its consumer meets them: after each
    record, the body of the loop runs, with the state [s] it updates; an
    exception of the body ends the loop. *)
Fixpoint consume {St} (t : list event) (body : St -> HfrPost -> Host St) (s : St) : Host St :=
  match t with
  | [] => hret s
  | Yield post :: t' =>
      (hemit (OfCrawler (Yield post)) ;;
       s' <- body s post ;;
       consume t' body s')%H
  | ev :: t' => (hemit (OfCrawler ev) ;; consume t' body s)%H
  end.

(** [async for post in gen: body]. *)
Definition async_for {St} (gen : M unit) (body : St -> HfrPost -> Host St) (s0 : St)
    : Host St :=
  (s <- consume (trace gen) body s0 ;;
   match outcome gen with
   | Ok _ => hret s
   | Raised e => hraise e
   end)%H.

(** [close]: the client is closed, then the crawler's logger says so. *)
Definition close (self : HfrCovid19) : Host unit :=
  (hemit ClientClose ;;
   hemit (OfCrawler (Log INFO "Shut down successfully" [])))%H.

(** What [worksheet.write] receives for the author. *)
Definition author_value (post : HfrPost) : value :=
  match author post with
  | Some a => PyStr a
  | None => PyNone
  end.

(** The body of the loop of [main]: two cells, and the next row.
    [strftime] stands for [timestamp.strftime] with the format of the
    script, which the library computes. *)
Definition write_row (strftime : datetime -> string) (row_idx : Z)
    (post : HfrPost) : Host Z :=
  (hemit (WorksheetWrite row_idx 0 (author_value post)) ;;
   hemit (WorksheetWrite row_idx 1 (PyStr (strftime (timestamp post)))) ;;
   hret (row_idx + 1))%H.

Definition workbook_path : string := "./posts_parsed.xlsx".

(** The coroutine [main].  The configuration of the logging module leaves
    no event; building the workbook and adding its worksheet are the one
    event [WorkbookOpen]; [row_idx] is the state of the loop. *)
Definition main (w : World) (strftime : datetime -> string) : Host unit :=
  (hfr <- of_crawler (__init__ (PyInt 13) (PyInt 422) (PyInt 118532)) ;;
   hemit (WorkbookOpen workbook_path) ;;
   hemit (RootLog INFO "Writing results to ./posts_parsed.xlsx" []) ;;
   try_finally
     (row_idx <- async_for (parse_all_pages w hfr) (write_row strftime) 0 ;;
      hemit (RootLog INFO "%d posts written to ./posts_parsed.xlsx"
               [PyInt (row_idx + 1)]))
     (hemit WorkbookClose ;; close hfr))%H.

(** The cells written, the lines of the root logger and the closings, in
    the order of the trace. *)
Fixpoint writes (t : list host_event) : list (Z * Z * value) :=
  match t with
  | [] => []
  | WorksheetWrite r c v :: t' => (r, c, v) :: writes t'
  | _ :: t' => writes t'
  end.

Fixpoint root_logs (t : list host_event) : list (string * list value) :=
  match t with
  | [] => []
  | RootLog _ f a :: t' => (f, a) :: root_logs t'
  | _ :: t' => root_logs t'
  end.

Definition is_closing (ev : host_event) : bool :=
  match ev with
  | WorkbookClose | ClientClose => true
  | _ => false
  end.

(** The cells of the rows [start], [start] + 1, ... for the given records. *)
Fixpoint sheet_rows (strftime : datetime -> string) (start : Z)
    (posts : list HfrPost) : list (Z * Z * value) :=
  match posts with
  | [] => []
  | p :: posts' =>
      (start, 0, author_value p)
      :: (start, 1, PyStr (strftime (timestamp p)))
      :: sheet_rows strftime (start + 1) posts'
  end.

(** *** More example pages

    [page_no_toolbar] has the message of [toto] and then a message without
    toolbar; [toolbar_february_30] names a day that does not exist. *)

Definition page_no_toolbar : string :=
  ("<table class='messagetable'><tr><td><b class='s2'>toto</b></td><td>"
   ++ toolbar_markup ++ "</td></tr></table>"
   ++ "<table class='messagetable'><tr><td><b class='s2'>titi</b></td></tr></table>")%string.

Definition block_no_toolbar : MessageBlock := mk_MessageBlock (Some "titi") None.

Definition toolbar_february_30 : string := phrase "30-02-2021" "10:00:00".

Definition further_messagetable (text : string) : list MessageBlock :=
  if String.eqb text page_no_toolbar then [block_toto; block_no_toolbar]
  else example_messagetable text.

Definition further_world : World :=
  mk_World (fun _ _ _ => Ok page_no_toolbar) (fun _ l => rev l)
           further_messagetable example_page_headers.

(** * Properties *)

(** ** Validation of the arguments *)

Lemma is_positive_int_iff (v : value) :
  is_positive_int v = true <-> positive_integer v.
Proof.
  split.
  - destruct v as [z | [|] | s | | c]; cbn; intro H; try discriminate.
    + constructor. now apply Z.ltb_lt.
    + constructor.
  - intros [z Hz | ]; cbn; [now apply Z.ltb_lt | reflexivity].
Qed.

Lemma not_positive_integer (v : value) :
  ~ positive_integer v -> is_positive_int v = false.
Proof.
  intro H. destruct (is_positive_int v) eqn:E; [| reflexivity].
  exfalso. now apply H, is_positive_int_iff.
Qed.

Lemma positive_integer_dec (v : value) :
  positive_integer v \/ ~ positive_integer v.
Proof.
  destruct (is_positive_int v) eqn:E.
  - left. now apply is_positive_int_iff.
  - right. intro H. apply is_positive_int_iff in H. congruence.
Qed.

(** C9. Construction succeeds exactly on three positive integers: then it
    returns the crawler holding the three identifiers and the fixed retry
    policy, having only logged one line; as soon as one identifier is not a
    positive integer it raises an [AssertionError] and nothing at all has
    happened before, in particular no request was sent. *)
Theorem init_validates_configuration (c s p : value) :
  (positive_integer c /\ positive_integer s /\ positive_integer p
   /\ outcome (__init__ c s p) = Ok (mk_HfrCovid19 c s p retry_policy)
   /\ requests (trace (__init__ c s p)) = [])
  \/
  (~ (positive_integer c /\ positive_integer s /\ positive_integer p)
   /\ exists msg, __init__ c s p = ([], Raised (AssertionError msg))).
Proof.
  destruct (positive_integer_dec c) as [Hc | Hc].
  - destruct (positive_integer_dec s) as [Hs | Hs].
    + destruct (positive_integer_dec p) as [Hp | Hp].
      * left. repeat split; try assumption;
          unfold __init__;
          rewrite (proj2 (is_positive_int_iff c) Hc),
                  (proj2 (is_positive_int_iff s) Hs),
                  (proj2 (is_positive_int_iff p) Hp); reflexivity.
      * right. split; [tauto |]. eexists. unfold __init__.
        rewrite (proj2 (is_positive_int_iff c) Hc),
                (proj2 (is_positive_int_iff s) Hs),
                (not_positive_integer p Hp). reflexivity.
    + right. split; [tauto |]. eexists. unfold __init__.
      rewrite (proj2 (is_positive_int_iff c) Hc), (not_positive_integer s Hs).
      reflexivity.
  - right. split; [tauto |]. eexists. unfold __init__.
    rewrite (not_positive_integer c Hc). reflexivity.
Qed.

(** C10. On an argument that is not a positive integer, [get_page_content]
    raises the [AssertionError] of its first line, and its trace is empty:
    no request has been sent. *)
Theorem get_page_content_rejects_bad_number
    (w : World) (self : HfrCovid19) (round : nat) (number : value) :
  ~ positive_integer number ->
  get_page_content w self round number
    = ([], Raised (AssertionError "number parameter must be a positive integer")).
Proof.
  intro H. unfold get_page_content, get_page_content_send.
  rewrite (not_positive_integer number H). reflexivity.
Qed.

(** ** The retry hook *)

(** C3, as the code has it. On a retry (attempt number N > 1) the hook logs
    one event carrying the method, the URL, N and the maximum; the event is
    a warning while N is below the maximum and informational once N has
    reached it. *)
Theorem on_request_start_severity
    (self : HfrCovid19) (N : Z) (method url : string) :
  1 < N ->
  exists lvl,
    _on_request_start self N method url
      = ([retry_event lvl self N method url], Ok tt)
    /\ (N < attempts (_retry_options self) -> lvl = WARNING)
    /\ (attempts (_retry_options self) <= N -> lvl = INFO).
Proof.
  intro HN. unfold _on_request_start.
  apply Z.ltb_lt in HN. rewrite HN.
  destruct (attempts (_retry_options self) <=? N) eqn:E.
  - exists INFO. apply Z.leb_le in E.
    split; [reflexivity | split; [lia | reflexivity]].
  - exists WARNING. apply Z.leb_gt in E.
    split; [reflexivity | split; [reflexivity | lia]].
Qed.

(** ** The post extractor *)

Section Extractor.

Lemma parse_posts_res (blocks : list MessageBlock) (res : list HfrPost) :
  parse_posts blocks res
  = (rs <- parse_posts blocks [] ;; Ok (res ++ rs))%result.
Proof.
  revert res. induction blocks as [| b blocks IH]; intro res; cbn.
  - now rewrite app_nil_r.
  - destruct (parse_post b) as [[p |] | e]; cbn; [| apply IH | reflexivity].
    rewrite (IH (res ++ [p])), (IH [p]).
    destruct (parse_posts blocks []) as [rs | e]; cbn; [| reflexivity].
    now rewrite <- app_assoc.
Qed.

Lemma parse_posts_app (b1 b2 : list MessageBlock) (res : list HfrPost) :
  parse_posts (b1 ++ b2) res
  = (r1 <- parse_posts b1 res ;; parse_posts b2 r1)%result.
Proof.
  revert res. induction b1 as [| b b1 IH]; intro res; cbn; [reflexivity |].
  destruct (parse_post b) as [[p |] | e]; cbn; auto.
Qed.

Lemma parse_posts_cons_record (b : MessageBlock) (p : HfrPost)
    (blocks : list MessageBlock) (rs : list HfrPost) :
  parse_post b = Ok (Some p) -> parse_posts blocks [] = Ok rs ->
  parse_posts (b :: blocks) [] = Ok (p :: rs).
Proof.
  intros Hb Hrs. cbn. rewrite Hb. cbn.
  rewrite parse_posts_res, Hrs. reflexivity.
Qed.

Lemma parse_posts_skip (b : MessageBlock) (blocks : list MessageBlock)
    (res : list HfrPost) :
  is_advertisement (s2_html b) = true ->
  parse_posts (b :: blocks) res = parse_posts blocks res.
Proof. intro H. cbn. unfold parse_post. now rewrite H. Qed.

Lemma parse_posts_filter (blocks : list MessageBlock) (res : list HfrPost) :
  parse_posts (filter is_message blocks) res = parse_posts blocks res.
Proof.
  revert res. induction blocks as [| b blocks IH]; intro res; [reflexivity |].
  cbn [filter]. unfold is_message at 1.
  destruct (is_advertisement (s2_html b)) eqn:E; cbn [negb].
  - now rewrite parse_posts_skip.
  - cbn. destruct (parse_post b) as [[p |] | e]; cbn; auto.
Qed.

Lemma parse_posts_In (blocks : list MessageBlock) (res posts : list HfrPost)
    (p : HfrPost) :
  parse_posts blocks res = Ok posts -> In p posts ->
  In p res \/ exists b, In b blocks /\ parse_post b = Ok (Some p).
Proof.
  revert res. induction blocks as [| b blocks IH]; intros res H Hin; cbn in H.
  - injection H as <-. now left.
  - destruct (parse_post b) as [[q |] | e] eqn:E; cbn in H; try discriminate.
    + destruct (IH _ H Hin) as [Hres | [b' [Hb' Hp]]].
      * apply in_app_or in Hres. destruct Hres as [Hres | [<- | []]].
        -- now left.
        -- right. exists b. split; [now left | assumption].
      * right. exists b'. split; [now right | assumption].
    + destruct (IH _ H Hin) as [Hres | [b' [Hb' Hp]]].
      * now left.
      * right. exists b'. split; [now right | assumption].
Qed.

Lemma parse_page_text (w : World) (text : string) :
  text <> "" ->
  parse_page w (PyStr text) = parse_posts (messagetable w text) [].
Proof.
  intro H. unfold parse_page. cbn.
  destruct (String.eqb_spec text ""); [contradiction | reflexivity].
Qed.

Lemma parse_page_ok_text (w : World) (content : value) (posts : list HfrPost) :
  parse_page w content = Ok posts ->
  exists text, content = PyStr text
               /\ parse_posts (messagetable w text) [] = Ok posts.
Proof.
  unfold parse_page. destruct content as [z | b | s | | c]; cbn; try discriminate.
  destruct (String.eqb s ""); cbn; [discriminate |].
  intro H. now exists s.
Qed.

(** *** What [strptime] lets through *)

Lemma digit_value_range (c : ascii) :
  Str.is_ascii_digit c = true -> 0 <= Str.digit_value c <= 9.
Proof.
  unfold Str.is_ascii_digit, Str.digit_value. intro H.
  apply andb_true_iff in H. destruct H as [H1 H2].
  apply N.leb_le in H1, H2. lia.
Qed.

Lemma digits_range (n : nat) (acc : Z) (s rest : string) (v : Z) :
  Time.digits n acc s = Some (v, rest) ->
  acc * 10 ^ Z.of_nat n <= v < (acc + 1) * 10 ^ Z.of_nat n.
Proof.
  revert acc s. induction n as [| n IH]; intros acc s H.
  - cbn in H. injection H as -> _. cbn. lia.
  - cbn [Time.digits] in H. destruct s as [| c s]; [discriminate |].
    destruct (Str.is_ascii_digit c) eqn:E; [| discriminate].
    apply IH in H. apply digit_value_range in E.
    rewrite Nat2Z.inj_succ, Z.pow_succ_r by lia.
    assert (0 < 10 ^ Z.of_nat n) by (apply Z.pow_pos_nonneg; lia).
    nia.
Qed.

Lemma strptime_full_resolution (s : string) (dt : datetime) :
  Time.strptime s = Ok dt -> full_resolution dt /\ tzinfo dt = None.
Proof.
  unfold Time.strptime, Time.fields, Time.obind.
  destruct (Time.digits 2 0 s) as [[d s1] |] eqn:Ed; [| discriminate].
  destruct (Time.expect "-" s1) as [s2 |]; [| discriminate].
  destruct (Time.digits 2 0 s2) as [[m s3] |] eqn:Em; [| discriminate].
  destruct (Time.expect "-" s3) as [s4 |]; [| discriminate].
  destruct (Time.digits 4 0 s4) as [[y s5] |] eqn:Ey; [| discriminate].
  destruct (Time.expect " " s5) as [s6 |]; [| discriminate].
  destruct (Time.digits 2 0 s6) as [[H s7] |] eqn:EH; [| discriminate].
  destruct (Time.expect ":" s7) as [s8 |]; [| discriminate].
  destruct (Time.digits 2 0 s8) as [[Mi s9] |] eqn:EM; [| discriminate].
  destruct (Time.expect ":" s9) as [s10 |]; [| discriminate].
  destruct (Time.digits 2 0 s10) as [[Se s11] |] eqn:ES; [| discriminate].
  destruct (String.eqb s11 ""); [| discriminate].
  destruct (Time.directives_accept d m H Mi Se
            && Time.constructor_accepts y m d Se) eqn:Acc; [| discriminate].
  intro Hdt. injection Hdt as <-.
  apply digits_range in Ed, Em, Ey, EH, EM, ES.
  unfold Time.directives_accept, Time.constructor_accepts in Acc.
  repeat (apply andb_true_iff in Acc; destruct Acc as [Acc ?]).
  repeat match goal with
         | H : (_ <=? _) = true |- _ => apply Z.leb_le in H
         end.
  unfold full_resolution; cbn in *. split; [lia | reflexivity].
Qed.

Lemma parse_post_record (b : MessageBlock) (p : HfrPost) :
  parse_post b = Ok (Some p) ->
  author p = s2_html b /\ is_advertisement (author p) = false
  /\ in_paris (timestamp p) /\ full_resolution (timestamp p).
Proof.
  unfold parse_post.
  destruct (is_advertisement (s2_html b)) eqn:Ead; [discriminate |].
  destruct (toolbar_left_html b) as [raw |]; [| discriminate].
  destruct (Re.search raw) as [[date time] |]; [| discriminate].
  destruct (Time.strptime _) as [naive | e] eqn:Es; [| discriminate].
  apply strptime_full_resolution in Es. destruct Es as [Hres Htz].
  cbn. unfold Time.localize. rewrite Htz.
  destruct (Time.on_edge_day naive); [discriminate |]. cbn.
  intro H. injection H as <-. cbn. repeat split; try assumption; apply Hres.
Qed.

End Extractor.

(** C4, as the code has it. Every record that [parse_page] returns carries
    a timestamp in the zone of Paris with a full date and a time to the
    second, and its author is the content of the author field of one of the
    page's blocks, which is not the advertisement sentinel; nothing checks
    that this content is a non-empty text. *)
Theorem parse_page_records
    (w : World) (content : value) (posts : list HfrPost) (p : HfrPost) :
  parse_page w content = Ok posts -> In p posts ->
  in_paris (timestamp p) /\ full_resolution (timestamp p)
  /\ is_advertisement (author p) = false
  /\ exists text b, content = PyStr text /\ In b (messagetable w text)
                    /\ author p = s2_html b.
Proof.
  intros H Hin. apply parse_page_ok_text in H. destruct H as [text [-> H]].
  destruct (parse_posts_In _ _ _ _ H Hin) as [[] | [b [Hb Hp]]].
  apply parse_post_record in Hp. destruct Hp as [Ha [Had [Htz Hres]]].
  repeat split; try assumption; try apply Hres.
  exists text, b. auto.
Qed.

(** C4, as the specification has it, fails: the page whose only message has
    an empty author element gives a record with the empty author. *)
Lemma record_invariant_counterexample :
  parse_page example_world (PyStr page_empty_author)
    = Ok [mk_HfrPost (Some "") instant_example]
  /\ ~ author_nonempty (mk_HfrPost (Some "") instant_example)
  /\ ~ record_invariant_as_specified.
Proof.
  assert (E : parse_page example_world (PyStr page_empty_author)
              = Ok [mk_HfrPost (Some "") instant_example])
    by (vm_compute; reflexivity).
  assert (N : ~ author_nonempty (mk_HfrPost (Some "") instant_example)).
  { intros [a [Ha Hne]]. cbn in Ha. injection Ha as <-. now apply Hne. }
  repeat split; try assumption.
  intro Hinv. apply N.
  exact (proj1 (Hinv example_world _ _ _ E (or_introl eq_refl))).
Qed.

(** C6. In the toolbar text of the example the pattern finds the date
    15-03-2020 and the time 14:30:05; [strptime] turns them into the naive
    instant 2020-03-15 14:30:05, [localize] puts it in the zone of Paris,
    and the record of a message block with that toolbar carries exactly
    this timestamp, at the block's place among the records of the page. *)
Theorem toolbar_example_timestamp
    (w : World) (text : string) (a : option string)
    (before after : list MessageBlock) (rb ra : list HfrPost) :
  text <> "" -> is_advertisement a = false ->
  messagetable w text
    = before ++ mk_MessageBlock a (Some toolbar_example) :: after ->
  parse_posts before [] = Ok rb -> parse_posts after [] = Ok ra ->
  Re.search toolbar_example = Some ("15-03-2020", "14:30:05")
  /\ Time.strptime "15-03-2020 14:30:05" = Ok instant_example_naive
  /\ Time.localize Time.PARIS_TZ instant_example_naive = Ok instant_example
  /\ parse_page w (PyStr text) = Ok (rb ++ mk_HfrPost a instant_example :: ra).
Proof.
  intros Htext Ha Hblocks Hb Hr.
  repeat split; try (vm_compute; reflexivity).
  rewrite (parse_page_text w text Htext), Hblocks, parse_posts_app, Hb. cbn [rbind].
  rewrite parse_posts_res.
  erewrite parse_posts_cons_record; [reflexivity | | exact Hr].
  unfold parse_post. cbn [s2_html toolbar_left_html]. rewrite Ha.
  vm_compute. reflexivity.
Qed.

(** C7. A block whose author is the advertisement sentinel is skipped: the
    page gives exactly what its other blocks give, records and errors
    alike, whatever the rest of the advertisement block contains.  When
    the only other block is a message that parses to a record, the page
    gives that one record. *)
Theorem advertisement_block_is_skipped
    (w : World) (text : string) (ad : MessageBlock)
    (before after : list MessageBlock) :
  text <> "" -> is_advertisement (s2_html ad) = true ->
  messagetable w text = before ++ ad :: after ->
  parse_page w (PyStr text) = parse_posts (before ++ after) []
  /\ forall b r, before ++ after = [b] -> parse_post b = Ok (Some r) ->
                 parse_page w (PyStr text) = Ok [r].
Proof.
  intros Htext Had Hblocks.
  assert (E : parse_page w (PyStr text) = parse_posts (before ++ after) []).
  { rewrite (parse_page_text w text Htext), Hblocks.
    rewrite !parse_posts_app.
    destruct (parse_posts before []) as [rb | e]; cbn; [| reflexivity].
    now apply parse_posts_skip. }
  split; [exact E |].
  intros b r Hone Hb. rewrite E, Hone.
  now apply parse_posts_cons_record.
Qed.

(** C8. On the empty text [parse_page] raises the [AssertionError] of its
    first line.  On a page with a message block that is not an
    advertisement and whose toolbar text the pattern does not match, it
    raises too, never returning a list: the [AssertionError] of the
    timestamp when the blocks before that one parse, the exception of an
    earlier block otherwise. *)
Theorem parse_page_fails_loudly
    (w : World) (text raw : string) (b : MessageBlock)
    (before after : list MessageBlock) :
  text <> "" ->
  messagetable w text = before ++ b :: after ->
  is_advertisement (s2_html b) = false ->
  toolbar_left_html b = Some raw -> Re.search raw = None ->
  parse_page w (PyStr "")
    = Raised (AssertionError "content parameter must be a non-empty string")
  /\ (exists e, parse_page w (PyStr text) = Raised e)
  /\ (forall rb, parse_posts before [] = Ok rb ->
        parse_page w (PyStr text)
          = Raised (AssertionError "Unable to parse post timestap")).
Proof.
  intros Htext Hblocks Had Hraw Hre.
  assert (Hb : parse_post b = Raised (AssertionError "Unable to parse post timestap")).
  { unfold parse_post. now rewrite Had, Hraw, Hre. }
  assert (E : parse_page w (PyStr text)
              = (r1 <- parse_posts before [] ;;
                 Raised (AssertionError "Unable to parse post timestap"))%result).
  { rewrite (parse_page_text w text Htext), Hblocks, parse_posts_app.
    destruct (parse_posts before []) as [rb | e]; cbn; [| reflexivity].
    now rewrite Hb. }
  split; [reflexivity |]. split.
  - rewrite E. destruct (parse_posts before []) as [rb | e]; cbn; eauto.
  - intros rb Hrb. now rewrite E, Hrb.
Qed.

(** ** Page-count discovery *)

Section Discovery.

Variables (w : World) (self : HfrCovid19).

Let request_1 : event := HttpGet page_url (page_params self (PyInt 1)).
Let returned_1 : event := Log INFO "Returned HTML page %d content" [PyInt 1].

Lemma get_total_page_count_cases :
  get_total_page_count w self
  = match fetch w self 0 1 with
    | Raised e => ([request_1], Raised e)
    | Ok page_1 =>
        match rmap Str.int (filter Str.isdigit (page_headers w page_1)) with
        | Raised e => ([request_1; returned_1], Raised e)
        | Ok [] =>
            ([request_1; returned_1],
             Raised (AssertionError
               "Unable to parse .fondForum2PagesHaut .cHeader to extract max page number"))
        | Ok (x :: l) =>
            ([request_1; returned_1;
              Log INFO "Topic has %d pages" [PyInt (max_of x l)]],
             Ok (max_of x l))
        end
    end.
Proof.
  unfold get_total_page_count, get_page_content, get_page_content_send,
    get_page_content_resume, fetch. cbn.
  destruct (http_get w 0 page_url (page_params self (PyInt 1))) as [page_1 | e];
    cbn; [| reflexivity].
  destruct (rmap Str.int (filter Str.isdigit (page_headers w page_1)))
    as [[| x l] | e]; reflexivity.
Qed.

Lemma max_of_ge (x : Z) (l : list Z) :
  x <= max_of x l /\ forall y, In y l -> y <= max_of x l.
Proof.
  unfold max_of. revert x. induction l as [| z l IH]; intro x; cbn.
  - split; [lia | intros y []].
  - destruct (IH (Z.max x z)) as [H1 H2]. split; [lia |].
    intros y [<- | Hy]; [lia | auto].
Qed.

Lemma max_of_In (x : Z) (l : list Z) : In (max_of x l) (x :: l).
Proof.
  unfold max_of. revert x. induction l as [| z l IH]; intro x; cbn.
  - now left.
  - destruct (IH (Z.max x z)) as [H | H].
    + destruct (Z.max_spec x z) as [[_ E] | [_ E]]; rewrite E in *; auto.
    + auto.
Qed.

(** When every label that passes [isdigit] is written with the digits 0
    to 9, and with no more of them than [int] converts, the labels that
    pass are all converted. *)
Lemma rmap_int_decimal (labels : list string) :
  (forall s, In s labels -> Str.isdigit s = true ->
             Str.all_chars Str.is_ascii_digit s = true
             /\ Z.of_nat (String.length s) <= Str.max_str_digits) ->
  rmap Str.int (filter Str.isdigit labels)
  = Ok (map (Str.decimal_acc 0) (filter Str.isdigit labels)).
Proof.
  induction labels as [| s labels IH]; intro H; [reflexivity |].
  cbn [filter]. destruct (Str.isdigit s) eqn:E.
  - cbn. unfold Str.int at 1.
    destruct (H s (or_introl eq_refl) E) as [-> Hlen].
    rewrite (proj2 (Z.leb_le _ _) Hlen).
    unfold Str.isdigit in E. apply andb_true_iff in E. destruct E as [-> _].
    cbn. rewrite IH; [reflexivity |]. intros; apply H; [now right | assumption].
  - apply IH. intros; apply H; [now right | assumption].
Qed.

(** The discovery on decimal labels: the greatest of the numeric labels,
    or the [AssertionError] when no label is numeric. *)
Lemma page_count_of_decimal_labels (page_1 : string) :
  fetch w self 0 1 = Ok page_1 ->
  (forall s, In s (page_headers w page_1) -> Str.isdigit s = true ->
             Str.all_chars Str.is_ascii_digit s = true
             /\ Z.of_nat (String.length s) <= Str.max_str_digits) ->
  let numbers :=
    map (Str.decimal_acc 0) (filter Str.isdigit (page_headers w page_1)) in
  match outcome (get_total_page_count w self) with
  | Ok max_page =>
      In max_page numbers /\ forall n, In n numbers -> n <= max_page
  | Raised e =>
      numbers = []
      /\ e = AssertionError
               "Unable to parse .fondForum2PagesHaut .cHeader to extract max page number"
  end.
Proof.
  intros Hfetch Hdec numbers.
  rewrite get_total_page_count_cases, Hfetch, (rmap_int_decimal _ Hdec).
  fold numbers. destruct numbers as [| x l]; cbn; [split; reflexivity |].
  split; [apply (max_of_In x l) |].
  intros n [<- | Hn];
    [apply (proj1 (max_of_ge x l)) | now apply (proj2 (max_of_ge x l))].
Qed.

End Discovery.

(** C5, evaluated on two pages. With the labels 1, 2, 10 and Prev the
    discovery returns 10.  With the labels 5 and superscript two it does
    not return 5: the superscript passes [isdigit], so it is not filtered
    out, and its conversion by [int] raises [ValueError]. *)
Theorem page_count_on_superscript_label :
  outcome (get_total_page_count example_world default_crawler) = Ok 10
  /\ page_headers (world_serving page_superscript) page_superscript
     = ["5"; Str.chr "178"%char]
  /\ Str.isdigit (Str.chr "178"%char) = true
  /\ Str.int (Str.chr "178"%char) = Raised ValueError
  /\ outcome (get_total_page_count (world_serving page_superscript) default_crawler)
     = Raised ValueError.
Proof. repeat split; vm_compute; reflexivity. Qed.

(** ** Ranges and groups *)

Section Ranges.

Lemma range_nil (lo hi : Z) : hi <= lo -> range lo hi = [].
Proof.
  intro H. unfold range. replace (Z.to_nat (hi - lo)) with 0%nat by lia.
  reflexivity.
Qed.

Lemma range_cons (lo hi : Z) : lo < hi -> range lo hi = lo :: range (lo + 1) hi.
Proof.
  intro H. unfold range.
  replace (Z.to_nat (hi - lo)) with (S (Z.to_nat (hi - (lo + 1)))) by lia.
  cbn [seq map]. f_equal; [lia |].
  rewrite <- seq_shift, map_map. apply map_ext. intro i. lia.
Qed.

Lemma length_range (lo hi : Z) : length (range lo hi) = Z.to_nat (hi - lo).
Proof. unfold range. now rewrite length_map, length_seq. Qed.

Lemma In_range (lo hi p : Z) : In p (range lo hi) <-> lo <= p < hi.
Proof.
  unfold range. rewrite in_map_iff. split.
  - intros [i [<- Hi]]. apply in_seq in Hi. lia.
  - intro H. exists (Z.to_nat (p - lo)). split; [lia |].
    apply in_seq. lia.
Qed.

Lemma range_app (lo mid hi : Z) :
  lo <= mid <= hi -> range lo hi = range lo mid ++ range mid hi.
Proof.
  intro H. remember (Z.to_nat (mid - lo)) as n eqn:En.
  revert lo H En. induction n as [| n IH]; intros lo H En.
  - replace mid with lo by lia. now rewrite (range_nil lo lo) by lia.
  - rewrite (range_cons lo hi), (range_cons lo mid) by lia.
    cbn. f_equal. apply IH; lia.
Qed.

Lemma firstn_range (n : nat) (lo hi : Z) :
  lo + Z.of_nat n <= hi ->
  firstn n (range lo hi) = range lo (lo + Z.of_nat n).
Proof.
  revert lo. induction n as [| n IH]; intros lo H.
  - cbn. now rewrite range_nil by lia.
  - rewrite (range_cons lo hi), (range_cons lo (lo + Z.of_nat (S n))) by lia.
    cbn [firstn]. f_equal. rewrite IH by lia. f_equal. lia.
Qed.

Lemma skipn_range (n : nat) (lo hi : Z) :
  lo + Z.of_nat n <= hi ->
  skipn n (range lo hi) = range (lo + Z.of_nat n) hi.
Proof.
  revert lo. induction n as [| n IH]; intros lo H.
  - cbn. f_equal. lia.
  - rewrite (range_cons lo hi) by lia. cbn [skipn].
    rewrite IH by lia. f_equal. lia.
Qed.

Context {A : Type}.

Lemma chunked_fuel_enough (n : nat) (f1 f2 : nat) (l : list A) :
  (0 < n)%nat -> (length l <= f1)%nat -> (length l <= f2)%nat ->
  chunked_fuel f1 l n = chunked_fuel f2 l n.
Proof.
  intro Hn. revert f2 l. induction f1 as [| f1 IH]; intros f2 l H1 H2.
  - destruct l; [| cbn in H1; lia].
    destruct f2; cbn; [reflexivity | now rewrite firstn_nil].
  - destruct f2 as [| f2].
    + destruct l; [| cbn in H2; lia]. cbn. now rewrite firstn_nil.
    + cbn. destruct (firstn n l) as [| x c] eqn:E; [reflexivity |].
      f_equal. destruct l as [| y l]; [now rewrite firstn_nil in E |].
      apply IH; rewrite length_skipn; cbn [length] in *; lia.
Qed.

Lemma chunked_nil (n : nat) : chunked (@nil A) n = [].
Proof. reflexivity. Qed.

(** The equation of [chunked]: enough fuel was given. *)
Lemma chunked_cons (n : nat) (x : A) (l : list A) :
  (0 < n)%nat ->
  chunked (x :: l) n = firstn n (x :: l) :: chunked (skipn n (x :: l)) n.
Proof.
  intro Hn. unfold chunked. cbn [length chunked_fuel].
  destruct n as [| n]; [lia |]. cbn [firstn]. f_equal.
  apply chunked_fuel_enough; [lia | | lia].
  rewrite length_skipn. cbn [length]. lia.
Qed.

Lemma chunked_fuel_map {B : Type} (f : A -> B) (fuel n : nat) (l : list A) :
  chunked_fuel fuel (map f l) n = map (map f) (chunked_fuel fuel l n).
Proof.
  revert l. induction fuel as [| fuel IH]; intro l; [reflexivity |].
  cbn. rewrite firstn_map. destruct (firstn n l) as [| x c]; [reflexivity |].
  cbn. f_equal. now rewrite skipn_map, IH.
Qed.

Lemma chunked_map {B : Type} (f : A -> B) (n : nat) (l : list A) :
  chunked (map f l) n = map (map f) (chunked l n).
Proof. unfold chunked. now rewrite length_map, chunked_fuel_map. Qed.

(** The groups are a partition into consecutive pieces of at most [n]. *)
Lemma chunked_partition (n : nat) (l : list A) :
  (0 < n)%nat ->
  concat (chunked l n) = l
  /\ Forall (fun c => (0 < length c <= n)%nat) (chunked l n).
Proof.
  intro Hn. remember (length l) as len eqn:El.
  revert l El. induction len as [len IH] using lt_wf_ind. intros l El.
  destruct l as [| x l]; [split; [reflexivity | constructor] |].
  rewrite chunked_cons by assumption.
  destruct (IH (length (skipn n (x :: l)))) with (l := skipn n (x :: l))
    as [Hc Hf]; [rewrite length_skipn; subst len; cbn [length]; lia | reflexivity |].
  split.
  - cbn [concat]. rewrite Hc. apply firstn_skipn.
  - constructor; [| exact Hf].
    rewrite length_firstn. cbn [length]. lia.
Qed.

End Ranges.

Lemma groups_from_nil (lo hi : Z) : hi <= lo -> groups_from lo hi = [].
Proof. intro H. unfold groups_from. now rewrite range_nil. Qed.

Lemma groups_from_cons (lo hi : Z) :
  lo < hi ->
  groups_from lo hi = range lo (Z.min (lo + 100) hi) :: groups_from (lo + 100) hi.
Proof.
  intro H. unfold groups_from. rewrite (range_cons lo hi H), chunked_cons by lia.
  rewrite <- (range_cons lo hi H).
  destruct (Z_le_gt_dec (lo + 100) hi) as [Hle | Hgt].
  - rewrite (firstn_range 100), (skipn_range 100) by lia.
    now rewrite Z.min_l by lia.
  - rewrite firstn_all2, skipn_all2 by (rewrite length_range; lia).
    rewrite Z.min_r by lia. now rewrite (range_nil (lo + 100) hi) by lia.
Qed.

Lemma chunked_coros (lo hi : Z) :
  chunked (coros_of lo hi) 100
  = map (map (fun page => (page, PyInt page))) (groups_from lo hi).
Proof. apply chunked_map. Qed.

Lemma round_of_group (j : nat) (p : Z) :
  100 * Z.of_nat j + 1 <= p < 100 * Z.of_nat j + 101 -> round_of p = S j.
Proof.
  intro H. unfold round_of. f_equal.
  rewrite <- (Z.div_unique (p - 1) 100 (Z.of_nat j) (p - 1 - 100 * Z.of_nat j));
    lia.
Qed.

(** ** Traces *)

Section Traces.

Lemma bind_ok {A B} (m : M A) (k : A -> M B) (t : list event) (a : A) :
  m = (t, Ok a) -> bind m k = (t ++ trace (k a), outcome (k a)).
Proof. intros ->. unfold bind, trace, outcome. now destruct (k a). Qed.

Lemma bind_raised {A B} (m : M A) (k : A -> M B) (t : list event) (e : exn) :
  m = (t, Raised e) -> bind m k = (t, Raised e).
Proof. now intros ->. Qed.

Lemma bind_lift_ok {A B} (a : A) (k : A -> M B) : bind (lift (Ok a)) k = k a.
Proof. unfold bind, lift. now destruct (k a). Qed.

Lemma bind_lift_raised {A B} (e : exn) (k : A -> M B) :
  bind (lift (Raised e)) k = ([], Raised e).
Proof. reflexivity. Qed.

Lemma bind_unit_eq {B} (m1 m2 : M unit) (k1 k2 : unit -> M B) :
  m1 = m2 -> k1 tt = k2 tt -> bind m1 k1 = bind m2 k2.
Proof.
  intros -> H. unfold bind. destruct m2 as [t [[] | e]]; [| reflexivity].
  now rewrite H.
Qed.

Lemma M_eta {A} (m : M A) : m = (trace m, outcome m).
Proof. now destruct m. Qed.

Lemma yielded_app (t1 t2 : list event) :
  yielded (t1 ++ t2) = yielded t1 ++ yielded t2.
Proof.
  induction t1 as [| [l f a | u ps | p] t1 IH]; cbn; [reflexivity | | |];
    now rewrite IH.
Qed.

Lemma yielded_map_Yield (posts : list HfrPost) :
  yielded (map Yield posts) = posts.
Proof. induction posts as [| p posts IH]; cbn; [reflexivity | now rewrite IH]. Qed.

Lemma yielded_map_HttpGet {A} (f : A -> string) (g : A -> list (string * value))
    (l : list A) :
  yielded (map (fun x => HttpGet (f x) (g x)) l) = [].
Proof. induction l; cbn; auto. Qed.

Lemma yielded_map_Log {A} (lv : level) (f : string) (g : A -> list value)
    (l : list A) :
  yielded (map (fun x => Log lv f (g x)) l) = [].
Proof. induction l; cbn; auto. Qed.

Lemma for_each_ok {A} (l : list A) (body : A -> M unit) (tr : A -> list event) :
  (forall x, In x l -> body x = (tr x, Ok tt)) ->
  for_each l body = (flat_map tr l, Ok tt).
Proof.
  induction l as [| x l IH]; intro H; [reflexivity |].
  cbn [for_each flat_map].
  rewrite (bind_ok _ _ _ _ (H x (or_introl eq_refl))).
  rewrite IH by (intros; apply H; now right). reflexivity.
Qed.

Lemma flat_map_singleton {A B} (f : A -> B) (l : list A) :
  flat_map (fun x => [f x]) l = map f l.
Proof. induction l as [| x l IH]; cbn; [reflexivity | now rewrite IH]. Qed.

Lemma for_each_yield (posts : list HfrPost) :
  for_each posts (fun post => emit (Yield post)) = (map Yield posts, Ok tt).
Proof.
  rewrite (for_each_ok posts _ (fun post => [Yield post])) by reflexivity.
  now rewrite flat_map_singleton.
Qed.

Lemma forallb_false {A} (f : A -> bool) (l : list A) :
  forallb f l = false -> exists x, In x l /\ f x = false.
Proof.
  induction l as [| x l IH]; cbn; [discriminate |].
  destruct (f x) eqn:E; cbn.
  - intro H. destruct (IH H) as [y [Hy Hf]]. exists y. auto.
  - intros _. exists x. auto.
Qed.

End Traces.

(** ** One group of pages *)

Section Group.

Variables (w : World) (self : HfrCovid19).
Hypothesis Hcompletes : completes w.

Let resume (k : nat) (number : value) : M unit :=
  (_ <- get_page_content_resume w self k number ;; ret tt)%M.
Let request (p : Z) : event := HttpGet page_url (page_params self (PyInt p)).
Let returned (number : value) : event :=
  Log INFO "Returned HTML page %d content" [number].

Lemma send_all (g : list Z) :
  (forall p, In p g -> 0 < p) ->
  for_each (map PyInt g) (get_page_content_send self) = (map request g, Ok tt).
Proof.
  intro Hpos.
  rewrite (for_each_ok _ _ (fun n => [HttpGet page_url (page_params self n)])).
  - now rewrite flat_map_singleton, map_map.
  - intros n Hn. apply in_map_iff in Hn. destruct Hn as [p [<- Hp]].
    unfold get_page_content_send. cbn.
    now rewrite (proj2 (Z.ltb_lt 0 p) (Hpos p Hp)).
Qed.

Lemma resume_ok (k : nat) (number : value) (text : string) :
  http_get w k page_url (page_params self number) = Ok text ->
  resume k number = ([returned number], Ok tt).
Proof.
  intro H. unfold resume, get_page_content_resume. now rewrite H.
Qed.

Lemma resume_raised (k : nat) (number : value) (e : exn) :
  http_get w k page_url (page_params self number) = Raised e ->
  resume k number = ([], Raised e).
Proof.
  intro H. unfold resume, get_page_content_resume. now rewrite H.
Qed.

Lemma resume_all (k : nat) (L : list value) :
  (forall n, In n L ->
     exists text, http_get w k page_url (page_params self n) = Ok text) ->
  for_each L (resume k) = (map returned L, Ok tt).
Proof.
  intro H. rewrite (for_each_ok _ _ (fun n => [returned n])).
  - now rewrite flat_map_singleton.
  - intros n Hn. destruct (H n Hn) as [text Ht]. now apply resume_ok with text.
Qed.

Lemma resume_any (k : nat) (L : list value) :
  yielded (trace (for_each L (resume k))) = []
  /\ (outcome (for_each L (resume k)) = Ok tt
      \/ exists n e, In n L
           /\ http_get w k page_url (page_params self n) = Raised e
           /\ outcome (for_each L (resume k)) = Raised e).
Proof.
  induction L as [| n L [IHy IHo]]; [cbn; auto |].
  cbn [for_each].
  destruct (http_get w k page_url (page_params self n)) as [text | e] eqn:E.
  - rewrite (bind_ok _ _ _ _ (resume_ok k n text E)). cbn [trace outcome fst snd].
    split; [cbn; exact IHy |].
    destruct IHo as [IHo | [n' [e [Hn' [He Ho]]]]]; [now left | right].
    exists n', e. auto using in_cons.
  - rewrite (bind_raised _ _ _ _ (resume_raised k n e E)). cbn.
    split; [reflexivity | right]. exists n, e. auto.
Qed.

Lemma rmap_fetch_ok (k : nat) (text : Z -> string) (g : list Z) :
  (forall p, In p g -> fetch w self k p = Ok (text p)) ->
  rmap (fun number => http_get w k page_url (page_params self number))
       (map PyInt g)
  = Ok (map text g).
Proof.
  induction g as [| p g IH]; intro H; [reflexivity |].
  cbn. unfold fetch in H. rewrite (H p (or_introl eq_refl)). cbn.
  rewrite IH by (intros; apply H; now right). reflexivity.
Qed.

Lemma rmap_fetch_raised (k : nat) (g : list Z) (p0 : Z) (e0 : exn) :
  In p0 g -> fetch w self k p0 = Raised e0 ->
  exists p e, In p g /\ fetch w self k p = Raised e
    /\ rmap (fun number => http_get w k page_url (page_params self number))
            (map PyInt g)
       = Raised e.
Proof.
  induction g as [| p g IH]; intros Hin H0; [contradiction |].
  cbn. destruct (fetch w self k p) as [text | e] eqn:E.
  - destruct Hin as [-> | Hin]; [congruence |].
    destruct (IH Hin H0) as [p' [e [Hp' [He Hr]]]].
    exists p', e. unfold fetch in E. rewrite E, Hr. auto.
  - exists p, e. unfold fetch in E. rewrite E. auto.
Qed.

Lemma completion_in (k : nat) (g : list Z) (n : value) :
  In n (completion w k (map PyInt g)) -> exists p, n = PyInt p /\ In p g.
Proof.
  intro H. apply (Permutation_in _ (Hcompletes k (map PyInt g))) in H.
  apply in_map_iff in H. destruct H as [p [<- Hp]]. eauto.
Qed.

Lemma gather_ok (k : nat) (text : Z -> string) (g : list Z) :
  (forall p, In p g -> 0 < p) ->
  (forall p, In p g -> fetch w self k p = Ok (text p)) ->
  gather w self k (map PyInt g)
  = (map request g ++ map returned (completion w k (map PyInt g)),
     Ok (map text g)).
Proof.
  intros Hpos Hok. unfold gather.
  rewrite (bind_ok _ _ _ _ (send_all g Hpos)).
  fold (resume k).
  assert (Hall : forall n, In n (completion w k (map PyInt g)) ->
            exists t, http_get w k page_url (page_params self n) = Ok t).
  { intros n Hn. destruct (completion_in k g n Hn) as [p [-> Hp]].
    exists (text p). now apply Hok. }
  rewrite (bind_ok _ _ _ _ (resume_all k _ Hall)).
  rewrite (rmap_fetch_ok k text g Hok). cbn.
  now rewrite !app_nil_r.
Qed.

Lemma gather_raised (k : nat) (g : list Z) (p0 : Z) (e0 : exn) :
  (forall p, In p g -> 0 < p) ->
  In p0 g -> fetch w self k p0 = Raised e0 ->
  exists p e, In p g /\ fetch w self k p = Raised e
    /\ outcome (gather w self k (map PyInt g)) = Raised e
    /\ yielded (trace (gather w self k (map PyInt g))) = [].
Proof.
  intros Hpos Hin H0. unfold gather.
  rewrite (bind_ok _ _ _ _ (send_all g Hpos)). fold (resume k).
  destruct (resume_any k (completion w k (map PyInt g)))
    as [Hy [Ho | [n [e [Hn [He Ho]]]]]].
  - destruct (rmap_fetch_raised k g p0 e0 Hin H0) as [p [e [Hp [He Hr]]]].
    exists p, e.
    rewrite (bind_ok _ _ (trace (for_each _ (resume k))) tt)
      by (rewrite <- Ho; apply M_eta).
    rewrite Hr. cbn. rewrite !yielded_app, Hy. unfold request.
    rewrite yielded_map_HttpGet. auto.
  - destruct (completion_in k g n Hn) as [p [-> Hp]].
    exists p, e.
    rewrite (bind_raised _ _ (trace (for_each _ (resume k))) e)
      by (rewrite <- Ho; apply M_eta).
    cbn. rewrite !yielded_app, Hy. unfold request.
    rewrite yielded_map_HttpGet. auto.
Qed.

End Group.

(** ** The orchestrator *)

Lemma parse_all_pages_unfold (w : World) (self : HfrCovid19) :
  parse_all_pages w self
  = (max_page <- get_total_page_count w self ;;
     run_groups w self 1 (chunked (coros_of 1 (max_page + 1)) 100))%M.
Proof. reflexivity. Qed.

Section Orchestrator.

Variables (w : World) (self : HfrCovid19).
Hypothesis Hcompletes : completes w.

Lemma page_fetched (p : Z) (text : string) :
  fetch w self (round_of p) p = Ok text ->
  page_text w self p = text
  /\ page_outcome w self p = parse_page w (PyStr text).
Proof. intro H. unfold page_text, page_outcome. now rewrite H. Qed.

Lemma page_step_good (p : Z) (text : string) (posts : list HfrPost) :
  fetch w self (round_of p) p = Ok text ->
  page_outcome w self p = Ok posts ->
  page_step w self p = (page_events w self p, Ok tt).
Proof.
  intros Hf Ho. destruct (page_fetched p text Hf) as [Ht Hp].
  unfold page_step, page_events, page_posts. rewrite Ht, Ho.
  rewrite Hp in Ho. rewrite Ho. cbn.
  rewrite for_each_yield. reflexivity.
Qed.

Lemma page_step_bad (p : Z) (text : string) (e : exn) :
  fetch w self (round_of p) p = Ok text ->
  page_outcome w self p = Raised e ->
  page_step w self p = ([], Raised e).
Proof.
  intros Hf Ho. destruct (page_fetched p text Hf) as [Ht Hp].
  unfold page_step. rewrite Ht. rewrite Hp in Ho. now rewrite Ho.
Qed.

Lemma yielded_page_events (p : Z) :
  yielded (page_events w self p) = page_posts w self p.
Proof. unfold page_events. cbn. apply yielded_map_Yield. Qed.

Lemma yielded_flat_map_page_events (g : list Z) :
  yielded (flat_map (page_events w self) g) = flat_map (page_posts w self) g.
Proof.
  induction g as [| p g IH]; [reflexivity |].
  cbn [flat_map]. now rewrite yielded_app, yielded_page_events, IH.
Qed.

Lemma yielded_group_trace (k : nat) (g : list Z) :
  yielded (group_trace w self k g) = flat_map (page_posts w self) g.
Proof.
  unfold group_trace.
  rewrite !yielded_app, yielded_map_HttpGet, yielded_map_Log.
  apply yielded_flat_map_page_events.
Qed.

(** The loop over [enumerate(pages_content)] looks the page number up by
    position; the lookup never fails and the loop is a loop over the
    pages of the group. *)
Lemma enumerate_loop (todo done : list Z) :
  for_each (combine (seq (length done) (length (map (page_text w self) todo)))
                    (map (page_text w self) todo))
           (emit_page w (done ++ todo))
  = for_each todo (page_step w self).
Proof.
  revert done. induction todo as [| p todo IH]; intro done; [reflexivity |].
  cbn [map length seq combine for_each]. apply bind_unit_eq.
  - unfold emit_page, page_step, index.
    rewrite nth_error_app2, Nat.sub_diag by lia. cbn [nth_error].
    destruct (parse_page w (PyStr (page_text w self p)));
      [now rewrite !bind_lift_ok | reflexivity].
  - specialize (IH (done ++ [p])).
    rewrite <- app_assoc, length_app, Nat.add_1_r in IH. exact IH.
Qed.

(** The loop over the pages of a group whose texts have all arrived:
    either every page gives its records, or the loop stops at the first
    page whose extraction fails, having yielded the records of the pages
    before it. *)
Lemma page_loop (n : nat) (a mid : Z) :
  Z.to_nat (mid - a) = n ->
  (forall p, a <= p < mid -> exists text, fetch w self (round_of p) p = Ok text) ->
  let m := for_each (range a mid) (page_step w self) in
  ((forall p, a <= p < mid -> page_good w self p)
   /\ m = (flat_map (page_events w self) (range a mid), Ok tt))
  \/ (exists f e,
        a <= f < mid
        /\ (forall p, a <= p < f -> page_good w self p)
        /\ page_failure w self f e
        /\ outcome m = Raised e
        /\ yielded (trace m) = flat_map (page_posts w self) (range a f)).
Proof.
  revert a. induction n as [| n IH]; intros a Hn Hfetch m; subst m.
  - left. rewrite range_nil by lia. split; [intros; lia | reflexivity].
  - rewrite (range_cons a mid) by lia. cbn [for_each].
    destruct (Hfetch a) as [text Ht]; [lia |].
    destruct (page_outcome w self a) as [posts | e] eqn:Ea.
    + rewrite (bind_ok _ _ _ _ (page_step_good a text posts Ht Ea)).
      destruct (IH (a + 1)) as [[Hgood Hm] | [f [e [Hf [Hgood [Hfail [Ho Hy]]]]]]];
        [lia | intros; apply Hfetch; lia | |].
      * left. split.
        -- intros p Hp. destruct (Z.eq_dec p a) as [-> | Hne];
             [now exists posts | apply Hgood; lia].
        -- rewrite Hm. reflexivity.
      * right. exists f, e.
        split; [lia |]. split; [| split; [exact Hfail | split; [exact Ho |]]].
        -- intros p Hp. destruct (Z.eq_dec p a) as [-> | Hne];
             [now exists posts | apply Hgood; lia].
        -- cbn [trace fst]. rewrite yielded_app, yielded_page_events.
           fold (trace (for_each (range (a + 1) mid) (page_step w self))).
           rewrite Hy. now rewrite (range_cons a f) by lia.
    + right. exists a, e.
      rewrite (bind_raised _ _ _ _ (page_step_bad a text e Ht Ea)).
      rewrite (range_nil a a) by lia.
      split; [lia |]. split; [intros; lia |].
      split; [exact Ea |]. split; reflexivity.
Qed.

Lemma coros_of_fst (lo hi : Z) : map fst (coros_of lo hi) = range lo hi.
Proof. unfold coros_of. rewrite map_map. cbn. apply map_id. Qed.

Lemma coros_of_snd (lo hi : Z) : map snd (coros_of lo hi) = map PyInt (range lo hi).
Proof. unfold coros_of. now rewrite map_map. Qed.

(** One group: either all its pages are good and its events are those of
    [group_trace], or it raises the failure of one of its pages, having
    yielded the records of the good pages from its first page up to some
    page before the one that failed. *)
Lemma group_cases (j : nat) (lo mid : Z) :
  lo = 100 * Z.of_nat j + 1 -> lo < mid <= lo + 100 ->
  let m := process_group w self (S j, coros_of lo mid) in
  ((forall p, lo <= p < mid -> page_good w self p)
   /\ m = (group_trace w self (S j) (range lo mid), Ok tt))
  \/ (exists f e n,
        lo <= f < mid /\ page_failure w self f e /\ outcome m = Raised e
        /\ lo - 1 <= n < f
        /\ (forall p, lo <= p <= n -> page_good w self p)
        /\ yielded (trace m) = flat_map (page_posts w self) (range lo (n + 1))).
Proof.
  intros Hlo Hmid m. subst m. unfold process_group.
  rewrite coros_of_fst, coros_of_snd.
  assert (Hround : forall p, lo <= p < mid -> round_of p = S j)
    by (intros; apply round_of_group; lia).
  assert (Hpos : forall p, In p (range lo mid) -> 0 < p)
    by (intros p Hp; apply In_range in Hp; lia).
  destruct (forallb (fun p => is_ok (fetch w self (S j) p)) (range lo mid)) eqn:Eall.
  - assert (Hfetch : forall p, lo <= p < mid ->
              fetch w self (round_of p) p = Ok (page_text w self p)).
    { intros p Hp. rewrite forallb_forall in Eall.
      specialize (Eall p (proj2 (In_range lo mid p) Hp)).
      unfold page_text. rewrite (Hround p Hp).
      now destruct (fetch w self (S j) p). }
    assert (Hfetch' : forall p, In p (range lo mid) ->
              fetch w self (S j) p = Ok (page_text w self p)).
    { intros p Hp. apply In_range in Hp. rewrite <- (Hround p Hp). now apply Hfetch. }
    rewrite (bind_ok _ _ _ _
               (gather_ok w self Hcompletes (S j) (page_text w self) _ Hpos Hfetch')).
    pose proof (enumerate_loop (range lo mid) []) as Hloop.
    cbn [length app] in Hloop. unfold enumerate. cbn beta. rewrite Hloop.
    destruct (page_loop (Z.to_nat (mid - lo)) lo mid eq_refl)
      as [[Hgood Hm] | [f [e [Hf [Hgood [Hfail [Ho Hy]]]]]]].
    + intros p Hp. eexists. now apply Hfetch.
    + left. split; [exact Hgood |]. rewrite Hm. cbn [trace outcome fst snd].
      unfold group_trace. now rewrite <- app_assoc.
    + right. exists f, e, (f - 1).
      split; [exact Hf |]. split; [exact Hfail |]. split; [exact Ho |].
      split; [lia |]. split; [intros; apply Hgood; lia |].
      cbn [trace fst].
      fold (trace (for_each (range lo mid) (page_step w self))).
      rewrite !yielded_app, yielded_map_HttpGet, yielded_map_Log, Hy.
      cbn. f_equal. f_equal. lia.
  - apply forallb_false in Eall. destruct Eall as [p0 [Hp0 Hbad]].
    destruct (fetch w self (S j) p0) as [text | e0] eqn:E0; [discriminate |].
    destruct (gather_raised w self Hcompletes (S j) _ p0 e0 Hpos Hp0 E0)
      as [p [e [Hp [He [Ho Hy]]]]].
    right. exists p, e, (lo - 1). apply In_range in Hp.
    rewrite (bind_raised _ _ (trace (gather w self (S j) (map PyInt (range lo mid)))) e)
      by (rewrite <- Ho; apply M_eta).
    split; [exact Hp |]. split.
    { unfold page_failure, page_outcome. rewrite (Hround p Hp), He. reflexivity. }
    split; [reflexivity |]. split; [lia |]. split; [intros; lia |].
    cbn [trace fst]. rewrite Hy. now rewrite range_nil by lia.
Qed.

Lemma chunked_coros_nil (lo hi : Z) :
  hi <= lo -> chunked (coros_of lo hi) 100 = [].
Proof. intro H. unfold coros_of. now rewrite range_nil. Qed.

Lemma chunked_coros_cons (lo hi : Z) :
  lo < hi ->
  chunked (coros_of lo hi) 100
  = coros_of lo (Z.min (lo + 100) hi) :: chunked (coros_of (lo + 100) hi) 100.
Proof.
  intro H. rewrite !chunked_coros, (groups_from_cons lo hi H). reflexivity.
Qed.

Lemma crawl_trace_from_nil (r : nat) (lo hi : Z) :
  hi <= lo -> crawl_trace_from w self r lo hi = [].
Proof. intro H. unfold crawl_trace_from. now rewrite groups_from_nil. Qed.

Lemma crawl_trace_from_cons (r : nat) (lo hi : Z) :
  lo < hi ->
  crawl_trace_from w self r lo hi
  = group_trace w self r (range lo (Z.min (lo + 100) hi))
    ++ crawl_trace_from w self (S r) (lo + 100) hi.
Proof.
  intro H. unfold crawl_trace_from. rewrite (groups_from_cons lo hi H).
  reflexivity.
Qed.

Lemma yielded_crawl_trace_from (n : nat) (r : nat) (lo hi : Z) :
  hi - lo <= 100 * Z.of_nat n ->
  yielded (crawl_trace_from w self r lo hi)
  = flat_map (page_posts w self) (range lo hi).
Proof.
  revert r lo. induction n as [| n IH]; intros r lo H.
  - now rewrite crawl_trace_from_nil, range_nil by lia.
  - destruct (Z_le_gt_dec hi lo) as [Hle | Hgt].
    + now rewrite crawl_trace_from_nil, range_nil by lia.
    + rewrite crawl_trace_from_cons, yielded_app, yielded_group_trace, IH by lia.
      rewrite <- flat_map_app. f_equal.
      destruct (Z_le_gt_dec (lo + 100) hi).
      * rewrite Z.min_l by lia. symmetry. apply range_app. lia.
      * rewrite Z.min_r, (range_nil (lo + 100) hi) by lia. apply app_nil_r.
Qed.

(** The groups one after the other, from the group of number [S j] that
    starts at page [lo]: either every page up to [hi] is good and the
    events are those of [crawl_trace_from], or the crawl raises the
    failure of a page [f], having yielded the records of the pages from
    [lo] to some page [n] that is before [f] and not before the start of
    the group of [f]. *)
Lemma crawl_cases (n : nat) (j : nat) (lo hi : Z) :
  lo = 100 * Z.of_nat j + 1 -> hi - lo <= 100 * Z.of_nat n ->
  let m := run_groups w self (S j) (chunked (coros_of lo hi) 100) in
  ((forall p, lo <= p < hi -> page_good w self p)
   /\ m = (crawl_trace_from w self (S j) lo hi, Ok tt))
  \/ (exists f e n',
        lo <= f < hi /\ page_failure w self f e /\ outcome m = Raised e
        /\ 100 * ((f - 1) / 100) <= n' < f
        /\ (forall p, lo <= p <= n' -> page_good w self p)
        /\ yielded (trace m) = flat_map (page_posts w self) (range lo (n' + 1))).
Proof.
  revert j lo. induction n as [| n IH]; intros j lo Hlo Hn m; subst m.
  - left. rewrite chunked_coros_nil, crawl_trace_from_nil by lia.
    split; [intros; lia | reflexivity].
  - destruct (Z_le_gt_dec hi lo) as [Hle | Hgt].
    { left. rewrite chunked_coros_nil, crawl_trace_from_nil by lia.
      split; [intros; lia | reflexivity]. }
    rewrite chunked_coros_cons, crawl_trace_from_cons by lia.
    set (mid := Z.min (lo + 100) hi).
    change (run_groups w self (S j)
              (coros_of lo mid :: chunked (coros_of (lo + 100) hi) 100))
      with (process_group w self (S j, coros_of lo mid) ;;
            run_groups w self (S (S j)) (chunked (coros_of (lo + 100) hi) 100))%M.
    assert (Hdiv : forall f, lo <= f < lo + 100 -> (f - 1) / 100 = Z.of_nat j).
    { intros f Hf. symmetry.
      apply (Z.div_unique (f - 1) 100 (Z.of_nat j) (f - 1 - 100 * Z.of_nat j)); lia. }
    destruct (group_cases j lo mid Hlo) as
      [[Hgood Hm] | [f [e [n1 [Hf [Hfail [Ho [Hn1 [Hgood Hy]]]]]]]]];
      [unfold mid; lia | |].
    + rewrite (bind_ok _ _ _ _ Hm).
      destruct (IH (S j) (lo + 100)) as
        [[Hgood' Hm'] | [f [e [n' [Hf [Hfail [Ho [Hn' [Hgood' Hy]]]]]]]]];
        [lia | lia | |].
      * left. split.
        -- intros p Hp. destruct (Z_lt_ge_dec p mid);
             [apply Hgood; lia | apply Hgood'; unfold mid in *; lia].
        -- rewrite Hm'. reflexivity.
      * right. exists f, e, n'.
        assert (Z.of_nat (S j) <= (f - 1) / 100)
          by (apply Z.div_le_lower_bound; lia).
        assert (Hmid : mid = lo + 100) by (unfold mid; lia).
        split; [lia |]. split; [exact Hfail |]. split; [exact Ho |].
        split; [lia |]. split.
        -- intros p Hp. destruct (Z_lt_ge_dec p mid);
             [apply Hgood; lia | apply Hgood'; lia].
        -- cbn [trace fst]. rewrite yielded_app, yielded_group_trace.
           fold (trace (run_groups w self (S (S j))
                          (chunked (coros_of (lo + 100) hi) 100))).
           rewrite Hy, <- flat_map_app, Hmid. f_equal.
           symmetry. apply range_app. lia.
    + right. exists f, e, n1.
      rewrite (bind_raised _ _ (trace (process_group w self (S j, coros_of lo mid))) e)
        by (rewrite <- Ho; apply M_eta).
      split; [unfold mid in *; lia |]. split; [exact Hfail |].
      split; [reflexivity |].
      split; [rewrite (Hdiv f) by (unfold mid in *; lia); lia |].
      split; [exact Hgood | exact Hy].
Qed.

End Orchestrator.

Lemma chunked_full {A} (n : nat) (l : list A) (c1 c2 : list (list A)) (g : list A) :
  (0 < n)%nat -> chunked l n = c1 ++ g :: c2 -> c2 <> [] -> length g = n.
Proof.
  intro Hn. revert l. induction c1 as [| c c1 IH]; intros l H Hc2.
  - destruct l as [| x l]; [discriminate |].
    rewrite chunked_cons in H by assumption. cbn [app] in H.
    injection H as Hg Hrest.
    destruct (skipn n (x :: l)) as [| y s] eqn:Es;
      [exfalso; apply Hc2; now rewrite <- Hrest |].
    assert (Hlen : (n < length (x :: l))%nat).
    { assert (length (skipn n (x :: l)) = length (y :: s)) by now rewrite Es.
      rewrite length_skipn in H. cbn [length] in *. lia. }
    rewrite <- Hg, length_firstn. lia.
  - destruct l as [| x l]; [discriminate |].
    rewrite chunked_cons in H by assumption. cbn [app] in H.
    injection H as _ Hrest. now apply (IH _ Hrest).
Qed.

Lemma yielded_discovery (w : World) (self : HfrCovid19) :
  yielded (trace (get_total_page_count w self)) = [].
Proof.
  rewrite get_total_page_count_cases.
  destruct (fetch w self 0 1) as [page_1 | e]; [| reflexivity].
  destruct (rmap Str.int (filter Str.isdigit (page_headers w page_1)))
    as [[| x l] | e]; reflexivity.
Qed.

Lemma discovery_repaired (w w' : World) (self : HfrCovid19) :
  repairs w w' self ->
  get_total_page_count w' self = get_total_page_count w self.
Proof.
  intros [_ [Hh [H0 _]]]. rewrite !get_total_page_count_cases.
  now rewrite H0, Hh.
Qed.

Lemma page_posts_repaired (w w' : World) (self : HfrCovid19) (p : Z) :
  repairs w w' self -> page_good w self p ->
  page_posts w' self p = page_posts w self p.
Proof.
  intros [Hm [_ [_ Hf]]] [posts Hp].
  unfold page_posts, page_outcome. rewrite (Hf p posts Hp).
  destruct (fetch w self (round_of p) p); [| reflexivity].
  cbn. unfold parse_page. now rewrite Hm.
Qed.

(** C1. When the discovery has found [max_page] pages and every page is
    fetched and extracted without failure: the page numbers 1..[max_page]
    are cut into consecutive groups of 100, the last one shorter when 100
    does not divide [max_page] (250 pages: 100, 100 and 50); after the
    events of the discovery, the crawl consists of the events of the first
    group, then those of the second, and so on, each group sending its
    requests, receiving the answers, and then yielding page after page;
    and the records yielded are those of page 1, then those of page 2, up
    to page [max_page], each page's records in the order [parse_page]
    returned them. *)
Theorem parse_all_pages_in_page_order
    (w : World) (self : HfrCovid19) (max_page : Z) (t0 : list event) :
  completes w ->
  get_total_page_count w self = (t0, Ok max_page) ->
  (forall p, 1 <= p <= max_page -> page_good w self p) ->
  concat (groups max_page) = range 1 (max_page + 1)
  /\ Forall (fun g => (0 < length g <= 100)%nat) (groups max_page)
  /\ (forall c1 g c2, groups max_page = c1 ++ g :: c2 -> c2 <> [] ->
                      length g = 100%nat)
  /\ map (@length Z) (groups 250) = [100; 100; 50]%nat
  /\ parse_all_pages w self = (t0 ++ crawl_trace w self max_page, Ok tt)
  /\ yielded (trace (parse_all_pages w self))
     = flat_map (page_posts w self) (range 1 (max_page + 1)).
Proof.
  intros Hc Hdisc Hgood.
  destruct (chunked_partition 100 (range 1 (max_page + 1))) as [Hcat Hall]; [lia |].
  split; [exact Hcat |]. split; [exact Hall |].
  split; [intros c1 g c2; apply chunked_full; lia |].
  split; [vm_compute; reflexivity |].
  assert (Hrun : parse_all_pages w self = (t0 ++ crawl_trace w self max_page, Ok tt)).
  { rewrite parse_all_pages_unfold, (bind_ok _ _ _ _ Hdisc).
    destruct (crawl_cases w self Hc (Z.to_nat max_page) 0 1 (max_page + 1))
      as [[_ Hm] | [f [e [n [Hf [Hfail _]]]]]]; [lia | lia | |].
    - rewrite Hm. reflexivity.
    - exfalso. destruct (Hgood f) as [posts Hp]; [lia |].
      unfold page_failure in Hfail. congruence. }
  split; [exact Hrun |].
  rewrite Hrun. cbn [trace fst]. rewrite yielded_app.
  replace t0 with (trace (get_total_page_count w self)) by now rewrite Hdisc.
  rewrite yielded_discovery. cbn [app].
  apply (yielded_crawl_trace_from w self (Z.to_nat max_page)). lia.
Qed.

Section Failure.

Variables (w : World) (self : HfrCovid19).
Hypothesis Hcompletes : completes w.

(** One group that fails: either one of its requests failed, and the group
    has yielded nothing; or all its pages arrived, and it has yielded the
    records of its pages before the first one whose extraction failed. *)
Lemma group_failure_cases (j : nat) (lo mid : Z) :
  lo = 100 * Z.of_nat j + 1 -> lo < mid <= lo + 100 ->
  let m := process_group w self (S j, coros_of lo mid) in
  ((forall p, lo <= p < mid -> page_good w self p)
   /\ m = (group_trace w self (S j) (range lo mid), Ok tt))
  \/ (exists f e,
        lo <= f < mid /\ fetch_fails w self f e
        /\ outcome m = Raised e /\ yielded (trace m) = [])
  \/ (exists f e,
        lo <= f < mid /\ extraction_fails w self f e
        /\ (forall p, lo <= p < mid ->
              exists text, fetch w self (round_of p) p = Ok text)
        /\ (forall p, lo <= p < f -> page_good w self p)
        /\ outcome m = Raised e
        /\ yielded (trace m) = flat_map (page_posts w self) (range lo f)).
Proof.
  intros Hlo Hmid m. subst m. unfold process_group.
  rewrite coros_of_fst, coros_of_snd.
  assert (Hround : forall p, lo <= p < mid -> round_of p = S j)
    by (intros; apply round_of_group; lia).
  assert (Hpos : forall p, In p (range lo mid) -> 0 < p)
    by (intros p Hp; apply In_range in Hp; lia).
  destruct (forallb (fun p => is_ok (fetch w self (S j) p)) (range lo mid)) eqn:Eall.
  - assert (Hfetch : forall p, lo <= p < mid ->
              fetch w self (round_of p) p = Ok (page_text w self p)).
    { intros p Hp. rewrite forallb_forall in Eall.
      specialize (Eall p (proj2 (In_range lo mid p) Hp)).
      unfold page_text. rewrite (Hround p Hp).
      now destruct (fetch w self (S j) p). }
    assert (Hfetch' : forall p, In p (range lo mid) ->
              fetch w self (S j) p = Ok (page_text w self p)).
    { intros p Hp. apply In_range in Hp. rewrite <- (Hround p Hp). now apply Hfetch. }
    rewrite (bind_ok _ _ _ _
               (gather_ok w self Hcompletes (S j) (page_text w self) _ Hpos Hfetch')).
    pose proof (enumerate_loop w self (range lo mid) []) as Hloop.
    cbn [length app] in Hloop. unfold enumerate. cbn beta. rewrite Hloop.
    destruct (page_loop w self (Z.to_nat (mid - lo)) lo mid eq_refl)
      as [[Hgood Hm] | [f [e [Hf [Hgood [Hfail [Ho Hy]]]]]]].
    + intros p Hp. eexists. now apply Hfetch.
    + left. split; [exact Hgood |]. rewrite Hm. cbn [trace outcome fst snd].
      unfold group_trace. now rewrite <- app_assoc.
    + right. right. exists f, e.
      split; [exact Hf |]. split.
      { exists (page_text w self f). split; [now apply Hfetch |].
        unfold page_failure, page_outcome in Hfail.
        rewrite (Hfetch f Hf) in Hfail. exact Hfail. }
      split; [intros p Hp; eexists; now apply Hfetch |].
      split; [exact Hgood |]. split; [exact Ho |].
      cbn [trace fst].
      fold (trace (for_each (range lo mid) (page_step w self))).
      now rewrite !yielded_app, yielded_map_HttpGet, yielded_map_Log, Hy.
  - apply forallb_false in Eall. destruct Eall as [p0 [Hp0 Hbad]].
    destruct (fetch w self (S j) p0) as [text | e0] eqn:E0; [discriminate |].
    destruct (gather_raised w self Hcompletes (S j) _ p0 e0 Hpos Hp0 E0)
      as [p [e [Hp [He [Ho Hy]]]]].
    right. left. exists p, e. apply In_range in Hp.
    rewrite (bind_raised _ _ (trace (gather w self (S j) (map PyInt (range lo mid)))) e)
      by (rewrite <- Ho; apply M_eta).
    split; [exact Hp |]. split.
    { unfold fetch_fails. now rewrite (Hround p Hp). }
    split; [reflexivity | exact Hy].
Qed.

(** The groups one after the other: either every page is good, or the
    crawl raises the failure of a page [f] and has yielded the records of
    the pages up to [n], where [n] is the last page before the group of [f]
    when a request of that group failed, and the page before [f] when the
    whole group arrived and the extraction of [f] failed. *)
Lemma crawl_failure_cases (n : nat) (j : nat) (lo hi : Z) :
  lo = 100 * Z.of_nat j + 1 -> hi - lo <= 100 * Z.of_nat n ->
  let m := run_groups w self (S j) (chunked (coros_of lo hi) 100) in
  (forall p, lo <= p < hi -> page_good w self p)
  \/ (exists f e n',
        lo <= f < hi /\ outcome m = Raised e
        /\ ((fetch_fails w self f e /\ n' = group_start f)
            \/ (extraction_fails w self f e /\ n' = f - 1
                /\ group_fetched w self (hi - 1) f))
        /\ (forall p, lo <= p <= n' -> page_good w self p)
        /\ yielded (trace m) = flat_map (page_posts w self) (range lo (n' + 1))).
Proof.
  revert j lo. induction n as [| n IH]; intros j lo Hlo Hn m; subst m.
  - left. intros; lia.
  - destruct (Z_le_gt_dec hi lo) as [Hle | Hgt]; [left; intros; lia |].
    rewrite chunked_coros_cons by lia.
    set (mid := Z.min (lo + 100) hi).
    change (run_groups w self (S j)
              (coros_of lo mid :: chunked (coros_of (lo + 100) hi) 100))
      with (process_group w self (S j, coros_of lo mid) ;;
            run_groups w self (S (S j)) (chunked (coros_of (lo + 100) hi) 100))%M.
    assert (Hdiv : forall f, lo <= f < lo + 100 -> group_start f = lo - 1).
    { intros f Hf. unfold group_start.
      rewrite <- (Z.div_unique (f - 1) 100 (Z.of_nat j) (f - 1 - 100 * Z.of_nat j));
        lia. }
    destruct (group_failure_cases j lo mid Hlo) as
      [[Hgood Hm]
      | [[f [e [Hf [Hfail [Ho Hy]]]]]
        | [f [e [Hf [Hfail [Hfetched [Hgood [Ho Hy]]]]]]]]];
      [unfold mid; lia | | |].
    + rewrite (bind_ok _ _ _ _ Hm).
      destruct (IH (S j) (lo + 100)) as
        [Hgood' | [f [e [n' [Hf [Ho [Hshape [Hgood' Hy]]]]]]]]; [lia | lia | |].
      * left. intros p Hp. destruct (Z_lt_ge_dec p mid);
          [apply Hgood; lia | apply Hgood'; unfold mid in *; lia].
      * right. exists f, e, n'.
        assert (Hq : Z.of_nat (S j) <= (f - 1) / 100)
          by (apply Z.div_le_lower_bound; lia).
        assert (Hstart : lo + 99 <= group_start f) by (unfold group_start; lia).
        assert (Hmid : mid = lo + 100) by (unfold mid; lia).
        assert (Hn' : lo + 99 <= n').
        { destruct Hshape as [[_ ->] | [_ [-> _]]]; lia. }
        split; [lia |]. split; [exact Ho |]. split; [exact Hshape |]. split.
        -- intros p Hp. destruct (Z_lt_ge_dec p mid);
             [apply Hgood; lia | apply Hgood'; lia].
        -- cbn [trace fst]. rewrite yielded_app, yielded_group_trace.
           fold (trace (run_groups w self (S (S j))
                          (chunked (coros_of (lo + 100) hi) 100))).
           rewrite Hy, <- flat_map_app, Hmid. f_equal.
           symmetry. apply range_app. lia.
    + right. exists f, e, (lo - 1).
      rewrite (bind_raised _ _ (trace (process_group w self (S j, coros_of lo mid))) e)
        by (rewrite <- Ho; apply M_eta).
      split; [unfold mid in *; lia |]. split; [reflexivity |].
      split; [left; split; [exact Hfail |];
              rewrite (Hdiv f) by (unfold mid in *; lia); reflexivity |].
      split; [intros; lia |].
      cbn [trace fst]. rewrite Hy. now rewrite range_nil by lia.
    + right. exists f, e, (f - 1).
      rewrite (bind_raised _ _ (trace (process_group w self (S j, coros_of lo mid))) e)
        by (rewrite <- Ho; apply M_eta).
      split; [unfold mid in *; lia |]. split; [reflexivity |].
      split.
      { right. split; [exact Hfail |]. split; [reflexivity |].
        intros q Hq Hmax. rewrite (Hdiv f) in Hq by (unfold mid in *; lia).
        apply Hfetched. unfold mid. lia. }
      split; [intros; apply Hgood; lia |].
      cbn [trace fst]. rewrite Hy. f_equal. f_equal. lia.
Qed.

End Failure.

(** C2, as the code has it. When the discovery has found [max_page] pages
    and some page cannot be fetched or extracted, the crawl ends with the
    failure of one of the pages, [f], and what it has yielded by then are
    the records of the pages 1 to [n], in that order and all of them good,
    where [n] is fixed by the kind of failure.  When the request for [f]
    failed, [n] is the last page of the groups before the group of [f]:
    these groups are there in full and the group of [f] gave nothing.
    When the extraction of [f] failed, every page of the group of [f] had
    arrived and [n] is the page before [f]: the earlier pages of the group
    of [f] are there too.  Nothing comes from [f] or from a later page, and
    these records are the beginning of what any crawl yields that succeeds
    after the failing answers have been replaced. *)
Theorem failure_ends_the_crawl
    (w : World) (self : HfrCovid19) (max_page : Z) (t0 : list event) :
  completes w ->
  get_total_page_count w self = (t0, Ok max_page) ->
  (exists p, 1 <= p <= max_page /\ ~ page_good w self p) ->
  exists f e n,
    1 <= f <= max_page
    /\ outcome (parse_all_pages w self) = Raised e
    /\ ((fetch_fails w self f e /\ n = group_start f)
        \/ (extraction_fails w self f e /\ n = f - 1
            /\ group_fetched w self max_page f))
    /\ (forall p, 1 <= p <= n -> page_good w self p)
    /\ yielded (trace (parse_all_pages w self))
       = flat_map (page_posts w self) (range 1 (n + 1))
    /\ forall w' t',
         completes w' -> repairs w w' self ->
         parse_all_pages w' self = (t', Ok tt) ->
         prefix_of (yielded (trace (parse_all_pages w self))) (yielded t').
Proof.
  intros Hc Hdisc [p [Hp Hbad]].
  assert (Ht0 : yielded t0 = []).
  { replace t0 with (trace (get_total_page_count w self)) by now rewrite Hdisc.
    apply yielded_discovery. }
  pose proof (parse_all_pages_unfold w self) as Hrun.
  rewrite (bind_ok _ _ _ _ Hdisc) in Hrun.
  destruct (crawl_failure_cases w self Hc (Z.to_nat max_page) 0 1 (max_page + 1))
    as [Hgood | [f [e [n [Hf [Ho [Hshape [Hgood Hy]]]]]]]]; [lia | lia | |].
  { exfalso. apply Hbad, Hgood. lia. }
  replace (max_page + 1 - 1) with max_page in Hshape by lia.
  assert (Hstart : 0 <= group_start f < f).
  { unfold group_start.
    pose proof (Z.div_pos (f - 1) 100 ltac:(lia) ltac:(lia)).
    pose proof (Z.mul_div_le (f - 1) 100 ltac:(lia)). lia. }
  assert (Hn : 0 <= n < f).
  { destruct Hshape as [[_ ->] | [_ [-> _]]]; lia. }
  assert (Hyield : yielded (trace (parse_all_pages w self))
                   = flat_map (page_posts w self) (range 1 (n + 1))).
  { rewrite Hrun. cbn [trace fst]. rewrite yielded_app, Ht0. exact Hy. }
  exists f, e, n.
  split; [lia |]. split; [rewrite Hrun; exact Ho |].
  split; [exact Hshape |]. split; [exact Hgood |]. split; [exact Hyield |].
  intros w' t' Hc' Hrep Hrun'.
  rewrite parse_all_pages_unfold, (discovery_repaired w w' self Hrep) in Hrun'.
  rewrite (bind_ok _ _ _ _ Hdisc) in Hrun'.
  destruct (crawl_cases w' self Hc' (Z.to_nat max_page) 0 1 (max_page + 1))
    as [[_ Hm'] | [f' [e' [n' [_ [_ [Ho' _]]]]]]]; [lia | lia | |].
  - rewrite Hm' in Hrun'. injection Hrun' as <-.
    rewrite Hyield, yielded_app, Ht0. cbn [app].
    rewrite (yielded_crawl_trace_from w' self (Z.to_nat max_page)) by lia.
    rewrite (range_app 1 (n + 1) (max_page + 1)), flat_map_app by lia.
    exists (flat_map (page_posts w' self) (range (n + 1) (max_page + 1))).
    f_equal. rewrite !flat_map_concat_map. f_equal. apply map_ext_in.
    intros q Hq. apply In_range in Hq.
    apply page_posts_repaired; [exact Hrep | apply Hgood; lia].
  - exfalso. apply (f_equal snd) in Hrun'. cbn [snd] in Hrun'.
    rewrite Ho' in Hrun'. discriminate.
Qed.

(** ** The statements at work on the example pages *)

(** Ten pages, all good: ten records, after one request for the discovery
    and ten for the only group. *)
Example crawl_of_example_world :
  outcome (parse_all_pages example_world default_crawler) = Ok tt
  /\ yielded (trace (parse_all_pages example_world default_crawler))
     = repeat post_toto 10
  /\ length (requests (trace (parse_all_pages example_world default_crawler)))
     = 11%nat.
Proof. repeat split; vm_compute; reflexivity. Qed.

(** The request for page 3 fails: the group is lost as a whole. *)
Example crawl_of_failing_world :
  outcome (parse_all_pages failing_world default_crawler)
    = Raised (ClientError "503")
  /\ yielded (trace (parse_all_pages failing_world default_crawler)) = [].
Proof. repeat split; vm_compute; reflexivity. Qed.

(** The extraction of page 3 fails: the records of pages 1 and 2, which
    are in the same group, have been yielded. *)
Example crawl_of_bad_page_world :
  outcome (parse_all_pages bad_page_world default_crawler)
    = Raised (AssertionError "Unable to parse post timestap")
  /\ yielded (trace (parse_all_pages bad_page_world default_crawler))
     = [post_toto; post_toto].
Proof. repeat split; vm_compute; reflexivity. Qed.

Lemma rev_completes (get : nat -> string -> list (string * value) -> result string)
    (mt : string -> list MessageBlock) (ph : string -> list string) :
  completes (mk_World get (fun _ l => rev l) mt ph).
Proof. intros k l. cbn. apply Permutation_sym, Permutation_rev. Defined.

(** C3, as the specification has it, fails: the second of three attempts is
    reported as a warning, and the third as an information. *)
Lemma severity_counterexample :
  _on_request_start default_crawler 2 "GET" page_url
    = ([retry_event WARNING default_crawler 2 "GET" page_url], Ok tt)
  /\ _on_request_start default_crawler 3 "GET" page_url
    = ([retry_event INFO default_crawler 3 "GET" page_url], Ok tt)
  /\ ~ severity_escalates.
Proof.
  split; [reflexivity |]. split; [reflexivity |].
  intro H. destruct (H default_crawler 2 "GET" page_url) as [lvl [E [Hlt _]]]; [lia |].
  assert (L : lvl = INFO) by (apply Hlt; cbn; lia).
  subst lvl. discriminate E.
Qed.

Lemma on_request_start_severity_witness :
  1 < 2
  /\ exists lvl,
       _on_request_start default_crawler 2 "GET" page_url
         = ([retry_event lvl default_crawler 2 "GET" page_url], Ok tt)
       /\ (2 < attempts (_retry_options default_crawler) -> lvl = WARNING)
       /\ (attempts (_retry_options default_crawler) <= 2 -> lvl = INFO).
Proof.
  split; [lia |].
  apply (on_request_start_severity default_crawler 2 "GET" page_url). lia.
Defined.

Lemma get_page_content_rejects_bad_number_witness :
  ~ positive_integer (PyInt 0)
  /\ get_page_content example_world default_crawler 0 (PyInt 0)
     = ([], Raised (AssertionError "number parameter must be a positive integer")).
Proof.
  assert (H : ~ positive_integer (PyInt 0)) by (intro P; inversion P; lia).
  split; [exact H |].
  apply (get_page_content_rejects_bad_number example_world default_crawler 0 (PyInt 0) H).
Defined.

Lemma parse_page_records_witness :
  parse_page example_world (PyStr page_example) = Ok [post_toto]
  /\ In post_toto [post_toto]
  /\ in_paris (timestamp post_toto) /\ full_resolution (timestamp post_toto)
  /\ is_advertisement (author post_toto) = false.
Proof.
  assert (E : parse_page example_world (PyStr page_example) = Ok [post_toto])
    by (vm_compute; reflexivity).
  assert (I : In post_toto [post_toto]) by (left; reflexivity).
  split; [exact E |]. split; [exact I |].
  destruct (parse_page_records example_world _ _ _ E I) as [H1 [H2 [H3 _]]].
  split; [exact H1 |]. split; [exact H2 | exact H3].
Defined.

Lemma toolbar_example_timestamp_witness :
  page_example <> ""
  /\ is_advertisement (Some "toto") = false
  /\ messagetable example_world page_example
     = [] ++ mk_MessageBlock (Some "toto") (Some toolbar_example) :: [block_advertisement]
  /\ parse_posts [] [] = Ok []
  /\ parse_posts [block_advertisement] [] = Ok []
  /\ parse_page example_world (PyStr page_example)
     = Ok ([] ++ mk_HfrPost (Some "toto") instant_example :: []).
Proof.
  assert (H1 : page_example <> "") by (intro H; vm_compute in H; discriminate H).
  assert (H2 : is_advertisement (Some "toto") = false) by reflexivity.
  assert (H3 : messagetable example_world page_example
               = [] ++ mk_MessageBlock (Some "toto") (Some toolbar_example)
                       :: [block_advertisement]) by (vm_compute; reflexivity).
  assert (H4 : parse_posts [] [] = Ok []) by reflexivity.
  assert (H5 : parse_posts [block_advertisement] [] = Ok []) by (vm_compute; reflexivity).
  repeat (split; [assumption |]).
  apply (toolbar_example_timestamp example_world page_example (Some "toto")
           [] [block_advertisement] [] [] H1 H2 H3 H4 H5).
Defined.

Lemma advertisement_block_is_skipped_witness :
  page_example <> ""
  /\ is_advertisement (s2_html block_advertisement) = true
  /\ messagetable example_world page_example
     = [block_toto] ++ block_advertisement :: []
  /\ parse_page example_world (PyStr page_example) = Ok [post_toto].
Proof.
  assert (H1 : page_example <> "") by (intro H; vm_compute in H; discriminate H).
  assert (H2 : is_advertisement (s2_html block_advertisement) = true)
    by (vm_compute; reflexivity).
  assert (H3 : messagetable example_world page_example
               = [block_toto] ++ block_advertisement :: [])
    by (vm_compute; reflexivity).
  repeat (split; [assumption |]).
  apply (proj2 (advertisement_block_is_skipped example_world page_example
                  block_advertisement [block_toto] [] H1 H2 H3) block_toto post_toto).
  - reflexivity.
  - vm_compute. reflexivity.
Defined.

Lemma parse_page_fails_loudly_witness :
  page_bad_toolbar <> ""
  /\ messagetable example_world page_bad_toolbar = [] ++ block_bad_toolbar :: []
  /\ is_advertisement (s2_html block_bad_toolbar) = false
  /\ toolbar_left_html block_bad_toolbar = Some "hier"
  /\ Re.search "hier" = None
  /\ parse_page example_world (PyStr page_bad_toolbar)
     = Raised (AssertionError "Unable to parse post timestap").
Proof.
  assert (H1 : page_bad_toolbar <> "") by (intro H; vm_compute in H; discriminate H).
  assert (H2 : messagetable example_world page_bad_toolbar
               = [] ++ block_bad_toolbar :: []) by (vm_compute; reflexivity).
  assert (H3 : is_advertisement (s2_html block_bad_toolbar) = false)
    by (vm_compute; reflexivity).
  assert (H4 : toolbar_left_html block_bad_toolbar = Some "hier") by reflexivity.
  assert (H5 : Re.search "hier" = None) by (vm_compute; reflexivity).
  repeat (split; [assumption |]).
  apply (proj2 (proj2 (parse_page_fails_loudly example_world page_bad_toolbar "hier"
                         block_bad_toolbar [] [] H1 H2 H3 H4 H5)) []).
  reflexivity.
Defined.

Lemma parse_all_pages_in_page_order_witness :
  completes (world_serving page_long_topic)
  /\ get_total_page_count (world_serving page_long_topic) default_crawler
     = (trace (get_total_page_count (world_serving page_long_topic) default_crawler),
        Ok 250)
  /\ (forall p, 1 <= p <= 250 ->
        page_good (world_serving page_long_topic) default_crawler p)
  /\ yielded (trace (parse_all_pages (world_serving page_long_topic) default_crawler))
     = flat_map (page_posts (world_serving page_long_topic) default_crawler)
                (range 1 (250 + 1)).
Proof.
  assert (H1 : completes (world_serving page_long_topic)) by apply rev_completes.
  assert (H2 : get_total_page_count (world_serving page_long_topic) default_crawler
               = (trace (get_total_page_count (world_serving page_long_topic)
                           default_crawler), Ok 250))
    by (vm_compute; reflexivity).
  assert (H3 : forall p, 1 <= p <= 250 ->
                 page_good (world_serving page_long_topic) default_crawler p)
    by (intros p _; exists [post_toto]; vm_compute; reflexivity).
  repeat (split; [assumption |]).
  apply (parse_all_pages_in_page_order (world_serving page_long_topic)
           default_crawler 250 _ H1 H2 H3).
Defined.

Lemma bad_page_world_repaired :
  repairs bad_page_world example_world default_crawler.
Proof.
  split; [reflexivity |]. split; [reflexivity |]. split; [reflexivity |].
  intros p posts H. unfold page_outcome, fetch in *. cbn in *.
  destruct (p =? 3); [discriminate H | reflexivity].
Defined.

(** C2, as the specification has it, fails: the extraction of page 3
    fails, page 3 is in the first group, so that no group was completed
    before the failing one, and yet the records of pages 1 and 2 have been
    yielded. *)
Lemma completed_groups_counterexample :
  outcome (parse_all_pages bad_page_world default_crawler)
    = Raised (AssertionError "Unable to parse post timestap")
  /\ page_failure bad_page_world default_crawler 3
       (AssertionError "Unable to parse post timestap")
  /\ group_start 3 = 0
  /\ yielded (trace (parse_all_pages bad_page_world default_crawler))
     = [post_toto; post_toto]
  /\ ~ completed_groups_only.
Proof.
  assert (Ho : outcome (parse_all_pages bad_page_world default_crawler)
               = Raised (AssertionError "Unable to parse post timestap"))
    by (vm_compute; reflexivity).
  assert (Hf : page_failure bad_page_world default_crawler 3
                 (AssertionError "Unable to parse post timestap"))
    by (vm_compute; reflexivity).
  assert (Hy : yielded (trace (parse_all_pages bad_page_world default_crawler))
               = [post_toto; post_toto]) by (vm_compute; reflexivity).
  split; [exact Ho |]. split; [exact Hf |]. split; [reflexivity |].
  split; [exact Hy |].
  intro Hclaim.
  assert (Hd : get_total_page_count bad_page_world default_crawler
               = (trace (get_total_page_count bad_page_world default_crawler), Ok 10))
    by (vm_compute; reflexivity).
  pose proof (Hclaim bad_page_world default_crawler 10 _ 3 _
                (rev_completes _ _ _) Hd ltac:(lia) Hf Ho) as Hbad.
  rewrite Hy in Hbad. vm_compute in Hbad. discriminate Hbad.
Qed.

Lemma failure_ends_the_crawl_witness :
  completes bad_page_world
  /\ get_total_page_count bad_page_world default_crawler
     = (trace (get_total_page_count bad_page_world default_crawler), Ok 10)
  /\ (exists p, 1 <= p <= 10 /\ ~ page_good bad_page_world default_crawler p)
  /\ completes example_world
  /\ repairs bad_page_world example_world default_crawler
  /\ parse_all_pages example_world default_crawler
     = (trace (parse_all_pages example_world default_crawler), Ok tt)
  /\ (exists f e n,
        1 <= f <= 10
        /\ outcome (parse_all_pages bad_page_world default_crawler) = Raised e
        /\ ((fetch_fails bad_page_world default_crawler f e /\ n = group_start f)
            \/ (extraction_fails bad_page_world default_crawler f e /\ n = f - 1
                /\ group_fetched bad_page_world default_crawler 10 f))
        /\ yielded (trace (parse_all_pages bad_page_world default_crawler))
           = flat_map (page_posts bad_page_world default_crawler) (range 1 (n + 1)))
  /\ prefix_of (yielded (trace (parse_all_pages bad_page_world default_crawler)))
               (yielded (trace (parse_all_pages example_world default_crawler))).
Proof.
  assert (H1 : completes bad_page_world) by apply rev_completes.
  assert (H2 : get_total_page_count bad_page_world default_crawler
               = (trace (get_total_page_count bad_page_world default_crawler), Ok 10))
    by (vm_compute; reflexivity).
  assert (H3 : exists p, 1 <= p <= 10 /\ ~ page_good bad_page_world default_crawler p).
  { exists 3. split; [lia |]. intros [posts H]. vm_compute in H. discriminate H. }
  assert (H4 : completes example_world) by apply rev_completes.
  assert (H5 : repairs bad_page_world example_world default_crawler)
    by apply bad_page_world_repaired.
  assert (H6 : parse_all_pages example_world default_crawler
               = (trace (parse_all_pages example_world default_crawler), Ok tt))
    by (vm_compute; reflexivity).
  repeat (split; [assumption |]).
  destruct (failure_ends_the_crawl bad_page_world default_crawler 10 _ H1 H2 H3)
    as [f [e [n [Hf [Ho [Hshape [_ [Hy Hprefix]]]]]]]].
  split.
  - exists f, e, n. repeat (split; [assumption |]). exact Hy.
  - exact (Hprefix example_world _ H4 H5 H6).
Defined.

(** A topic page whose toolbar names the first day of the calendar. *)
Example first_day_is_an_overflow_error :
  parse_post (mk_MessageBlock (Some "toto")
                (Some (phrase "01-01-0001" "00:00:00")))
    = Raised OverflowError.
Proof. vm_compute. reflexivity. Qed.

(** * Further properties *)

(** ** The extractor, block by block *)

Lemma parse_post_none (b : MessageBlock) :
  parse_post b = Ok None -> is_advertisement (s2_html b) = true.
Proof.
  unfold parse_post. destruct (is_advertisement (s2_html b)); [reflexivity |].
  destruct (toolbar_left_html b) as [raw |]; [| discriminate].
  destruct (Re.search raw) as [[date time] |]; [| discriminate].
  destruct (Time.strptime _) as [naive | e]; [| discriminate]. cbn.
  destruct (Time.localize Time.PARIS_TZ naive); discriminate.
Qed.

Lemma parse_posts_records (blocks : list MessageBlock) (posts : list HfrPost) :
  parse_posts blocks [] = Ok posts
  <-> Forall2 record_of (filter is_message blocks) posts.
Proof.
  revert posts. induction blocks as [| b blocks IH]; intro posts.
  - cbn. split.
    + intro H. injection H as <-. constructor.
    + intro H. inversion H. reflexivity.
  - cbn [filter]. unfold is_message at 1.
    destruct (is_advertisement (s2_html b)) eqn:Ead; cbn [negb].
    + rewrite parse_posts_skip by assumption. apply IH.
    + split.
      * intro H. cbn in H.
        destruct (parse_post b) as [[p |] | e] eqn:Eb; cbn in H; try discriminate.
        -- rewrite parse_posts_res in H.
           destruct (parse_posts blocks []) as [rs | e] eqn:Ers; [| discriminate].
           injection H as <-. constructor; [exact Eb | now apply IH].
        -- apply parse_post_none in Eb. congruence.
      * intro H. inversion H as [| b' p bs rs Hb Hrs]; subst.
        apply parse_posts_cons_record; [exact Hb | now apply IH].
Qed.

(** X1. [parse_page] returns a list exactly when the text is not empty and
    every block that is not an advertisement has a record; the list then
    holds these records, one per such block, in the order of the blocks in
    the page. *)
Theorem parse_page_document_order
    (w : World) (text : string) (posts : list HfrPost) :
  parse_page w (PyStr text) = Ok posts
  <-> text <> ""
      /\ Forall2 record_of (filter is_message (messagetable w text)) posts.
Proof.
  split.
  - intro H. assert (Hne : text <> "").
    { intros ->. discriminate H. }
    split; [exact Hne |].
    rewrite (parse_page_text w text Hne) in H. now apply parse_posts_records.
  - intros [Hne H]. rewrite (parse_page_text w text Hne).
    now apply parse_posts_records.
Qed.

(** X2. The first block that raises decides the outcome of the page:
    [parse_page] raises the exception of that block and returns nothing of
    what the blocks before it gave.  A message block without a toolbar
    element raises [TypeError]. *)
Theorem parse_page_first_failure
    (w : World) (text : string) (b : MessageBlock)
    (before after : list MessageBlock) (rb : list HfrPost) (e : exn) :
  text <> "" ->
  messagetable w text = before ++ b :: after ->
  parse_posts before [] = Ok rb ->
  parse_post b = Raised e ->
  parse_page w (PyStr text) = Raised e
  /\ (is_advertisement (s2_html b) = false -> toolbar_left_html b = None ->
      e = TypeError).
Proof.
  intros Hne Hblocks Hb He. split.
  - rewrite (parse_page_text w text Hne), Hblocks, parse_posts_app, Hb.
    cbn. now rewrite He.
  - intros Had Hnone. unfold parse_post in He. rewrite Had, Hnone in He.
    now injection He.
Qed.

(** ** The pattern of the timestamp *)

Lemma sapp_assoc (a b c : string) : ((a ++ b) ++ c = a ++ (b ++ c))%string.
Proof. induction a as [| x a IH]; cbn; [reflexivity | now rewrite IH]. Qed.

Lemma match_atoms_sound (p : list Re.atom) (s m rest : string) :
  Re.match_atoms p s = Some (m, rest) ->
  s = (m ++ rest)%string /\ atoms_match p m.
Proof.
  revert s m. induction p as [| a p IH]; intros s m H; cbn in H.
  - injection H as <- <-. split; [reflexivity | exact I].
  - destruct s as [| c s]; [discriminate |].
    destruct (Re.atom_matches a c) eqn:Ea; [| discriminate].
    destruct (Re.match_atoms p s) as [[m' rest'] |] eqn:Em; [| discriminate].
    injection H as <- <-. destruct (IH _ _ Em) as [-> Hm].
    split; [reflexivity | split; assumption].
Qed.

Lemma match_atoms_complete (p : list Re.atom) (m rest : string) :
  atoms_match p m -> Re.match_atoms p (m ++ rest) = Some (m, rest).
Proof.
  revert m. induction p as [| a p IH]; intros m H.
  - destruct m; [reflexivity | contradiction].
  - destruct m as [| c m]; [contradiction |]. destruct H as [Ha Hm].
    cbn. now rewrite Ha, (IH m Hm).
Qed.

Lemma atoms_match_literal (cs : list ascii) (m : string) :
  atoms_match (map Re.Lit cs) m <-> m = string_of_list_ascii cs.
Proof.
  revert m. induction cs as [| c cs IH]; intro m; cbn.
  - destruct m; [tauto | split; [contradiction | discriminate]].
  - destruct m as [| c' m]; [split; [contradiction | discriminate] |].
    rewrite IH. cbn. split.
    + intros [Hc ->]. apply Ascii.eqb_eq in Hc. now subst.
    + intro H. inversion H; subst. split; [apply Ascii.eqb_refl | reflexivity].
Qed.

Lemma atoms_match_prefix (m : string) : atoms_match Re.prefix m <-> m = prefix_text.
Proof. apply (atoms_match_literal (list_ascii_of_string prefix_text)). Qed.

Lemma atoms_match_infix (m : string) : atoms_match Re.infix m <-> m = infix_text.
Proof. apply (atoms_match_literal (list_ascii_of_string infix_text)). Qed.

Lemma phrase_parts (d t : string) :
  phrase d t = (prefix_text ++ d ++ infix_text ++ t)%string.
Proof. reflexivity. Qed.

Lemma match_here_iff (s d t : string) :
  Re.match_here s = Some (d, t)
  <-> exists rest, s = (phrase d t ++ rest)%string
                   /\ atoms_match Re.date d /\ atoms_match Re.time t.
Proof.
  unfold Re.match_here. split.
  - destruct (Re.match_atoms Re.prefix s) as [[m0 s1] |] eqn:E0; [| discriminate].
    destruct (Re.match_atoms Re.date s1) as [[d' s2] |] eqn:E1; [| discriminate].
    destruct (Re.match_atoms Re.infix s2) as [[m2 s3] |] eqn:E2; [| discriminate].
    destruct (Re.match_atoms Re.time s3) as [[t' s4] |] eqn:E3; [| discriminate].
    intro H. injection H as -> ->.
    apply match_atoms_sound in E0, E1, E2, E3.
    destruct E0 as [-> H0], E1 as [-> H1], E2 as [-> H2], E3 as [-> H3].
    apply atoms_match_prefix in H0. apply atoms_match_infix in H2. subst m0 m2.
    exists s4. split; [| split; assumption].
    rewrite phrase_parts. now rewrite !sapp_assoc.
  - intros [rest [-> [Hd Ht]]].
    rewrite phrase_parts, !sapp_assoc.
    rewrite (match_atoms_complete Re.prefix prefix_text)
      by now apply atoms_match_prefix.
    rewrite (match_atoms_complete Re.date d) by assumption.
    rewrite (match_atoms_complete Re.infix infix_text)
      by now apply atoms_match_infix.
    now rewrite (match_atoms_complete Re.time t) by assumption.
Qed.

Lemma search_sound (s : string) (g : string * string) :
  Re.search s = Some g ->
  exists pre s', s = (pre ++ s')%string /\ Re.match_here s' = Some g.
Proof.
  induction s as [| c s IH]; cbn [Re.search].
  - destruct (Re.match_here "") eqn:E; [| discriminate].
    intro H. injection H as <-. now exists "", "".
  - destruct (Re.match_here (String c s)) eqn:E.
    + intro H. injection H as <-. now exists "", (String c s).
    + intro H. destruct (IH H) as [pre [s' [-> Hs']]].
      now exists (String c pre), s'.
Qed.

Lemma search_complete (pre s : string) (g : string * string) :
  Re.match_here s = Some g -> exists g', Re.search (pre ++ s) = Some g'.
Proof.
  intro H. induction pre as [| c pre IH]; cbn [append Re.search].
  - destruct s; cbn [Re.search]; rewrite H; eauto.
  - destruct (Re.match_here (String c (pre ++ s))); eauto.
Qed.

(** X3. [re.search] with the pattern of the source finds a date and a time
    in a toolbar text exactly when the text contains, anywhere, the phrase
    [Posté le dd-dd-dddd à dd:dd:dd] (digits 0 to 9, non-breaking spaces
    around the preposition); the groups it returns are those of such an
    occurrence. *)
Theorem search_finds_the_phrase (raw : string) :
  match Re.search raw with
  | Some (d, t) =>
      exists pre suf, raw = (pre ++ phrase d t ++ suf)%string
                      /\ atoms_match Re.date d /\ atoms_match Re.time t
  | None =>
      forall pre d t suf,
        atoms_match Re.date d -> atoms_match Re.time t ->
        raw <> (pre ++ phrase d t ++ suf)%string
  end.
Proof.
  destruct (Re.search raw) as [[d t] |] eqn:E.
  - destruct (search_sound raw _ E) as [pre [s' [-> Hs']]].
    apply match_here_iff in Hs'. destruct Hs' as [suf [-> [Hd Ht]]].
    now exists pre, suf.
  - intros pre d t suf Hd Ht ->.
    destruct (search_complete pre (phrase d t ++ suf) (d, t)) as [g' Hg'].
    + apply match_here_iff. now exists suf.
    + congruence.
Qed.

(** ** A toolbar that matches *)

Lemma accepts_iff (y m d H Mi Se : Z) :
  Time.directives_accept d m H Mi Se && Time.constructor_accepts y m d Se = true
  <-> real_instant y m d H Mi Se.
Proof.
  unfold Time.directives_accept, Time.constructor_accepts, real_instant.
  assert (Hdim : Time.days_in_month y m <= 31).
  { unfold Time.days_in_month. destruct (m =? 2); [destruct (Time.is_leap y); lia |].
    destruct ((m =? 4) || (m =? 6) || (m =? 9) || (m =? 11)); lia. }
  rewrite !andb_true_iff, !Z.leb_le. lia.
Qed.

Ltac next_char H s :=
  destruct s as [| ?c s]; [contradiction H |];
  let Hc := fresh "Hc" in destruct H as [Hc H]; cbn [Re.atom_matches] in Hc.

(** The groups of the pattern always have the shape [strptime] expects. *)
Lemma fields_of_groups (date time : string) :
  atoms_match Re.date date -> atoms_match Re.time time ->
  exists d m y H Mi Se,
    Time.fields (date ++ " " ++ time) = Some (d, m, y, H, Mi, Se).
Proof.
  intros Hd Ht. unfold Re.date in Hd. unfold Re.time in Ht.
  do 10 (next_char Hd date). do 8 (next_char Ht time).
  destruct date; [| contradiction]. destruct time; [| contradiction].
  repeat match goal with
         | E : (_ =? _)%char = true |- _ => apply Ascii.eqb_eq in E; subst
         end.
  unfold Time.fields. cbn [append].
  repeat first
    [ rewrite Ascii.eqb_refl
    | match goal with
      | E : Str.is_ascii_digit _ = true |- _ => rewrite E; clear E
      end
    | progress cbn [Time.digits Time.expect Time.obind String.eqb] ].
  repeat eexists.
Qed.

Lemma search_groups (raw date time : string) :
  Re.search raw = Some (date, time) ->
  atoms_match Re.date date /\ atoms_match Re.time time.
Proof.
  intro H. destruct (search_sound raw _ H) as [pre [s' [_ Hs']]].
  apply match_here_iff in Hs'. destruct Hs' as [_ [_ Hg]]. exact Hg.
Qed.

Lemma on_edge_day_iff (y m d H Mi Se : Z) (tz : option string) :
  Time.on_edge_day (mk_datetime y m d H Mi Se tz) = true <-> edge_day y m d.
Proof.
  unfold Time.on_edge_day, edge_day. cbn [year month day].
  rewrite orb_true_iff, !andb_true_iff, !Z.eqb_eq. tauto.
Qed.

(** X4. For a message block whose toolbar matches the pattern, nothing but
    the calendar decides: the two groups always have the shape [strptime]
    expects; when their numbers are not a real date and time (day 30 of
    February, hour 24, second 60, year 0) the block raises [ValueError];
    when they are, the block gives the record with these numbers in the
    zone of Paris, except on the first and the last day of the calendar
    (0001-01-01 and 9999-12-31), where [localize] raises [OverflowError]. *)
Theorem matched_toolbar_outcome (b : MessageBlock) (raw date time : string) :
  is_advertisement (s2_html b) = false ->
  toolbar_left_html b = Some raw ->
  Re.search raw = Some (date, time) ->
  exists d m y H Mi Se,
    Time.fields (date ++ " " ++ time) = Some (d, m, y, H, Mi, Se)
    /\ ((real_instant y m d H Mi Se /\ ~ edge_day y m d
         /\ parse_post b
            = Ok (Some (mk_HfrPost (s2_html b)
                          (mk_datetime y m d H Mi Se (Some "Europe/Paris")))))
        \/ (real_instant y m d H Mi Se /\ edge_day y m d
            /\ parse_post b = Raised OverflowError)
        \/ (~ real_instant y m d H Mi Se /\ parse_post b = Raised ValueError)).
Proof.
  intros Had Hraw Hre.
  pose proof (search_groups raw date time Hre) as [Hd Ht].
  destruct (fields_of_groups date time Hd Ht) as [d [m [y [H [Mi [Se Hf]]]]]].
  exists d, m, y, H, Mi, Se. split; [exact Hf |].
  unfold parse_post. rewrite Had, Hraw, Hre. unfold Time.strptime. rewrite Hf.
  destruct (Time.directives_accept d m H Mi Se && Time.constructor_accepts y m d Se)
    eqn:Acc.
  - apply accepts_iff in Acc. cbn [rbind]. unfold Time.localize. cbn [tzinfo].
    destruct (Time.on_edge_day (mk_datetime y m d H Mi Se None)) eqn:Edge.
    + right. left. split; [exact Acc |]. split; [| reflexivity].
      now apply on_edge_day_iff in Edge.
    + left. split; [exact Acc |]. split; [| reflexivity].
      intro He. apply (on_edge_day_iff y m d H Mi Se None) in He. congruence.
  - right. right. split; [| reflexivity].
    intro Hreal. apply accepts_iff in Hreal. congruence.
Qed.

(** ** What a crawl never does *)

Section TraceInvariant.

Variable P : event -> Prop.

Lemma Forall_trace_bind {A B} (m : M A) (k : A -> M B) :
  Forall P (trace m) ->
  (forall a, outcome m = Ok a -> Forall P (trace (k a))) ->
  Forall P (trace (bind m k)).
Proof.
  destruct m as [t [a | e]]; cbn; intros Ht Hk; [| exact Ht].
  specialize (Hk a eq_refl). destruct (k a) as [t' r]. cbn in *.
  apply Forall_app. now split.
Qed.

Lemma Forall_trace_for_each {A} (l : list A) (body : A -> M unit) :
  (forall x, In x l -> Forall P (trace (body x))) ->
  Forall P (trace (for_each l body)).
Proof.
  induction l as [| x l IH]; intro H; [constructor |].
  cbn [for_each]. apply Forall_trace_bind.
  - apply H. now left.
  - intros _ _. apply IH. intros y Hy. apply H. now right.
Qed.

Lemma Forall_requests (t : list event) :
  Forall P t -> Forall (fun r => P (HttpGet (fst r) (snd r))) (requests t).
Proof.
  induction 1 as [| [l f a | u ps | p] t Hev _ IH]; cbn; auto.
Qed.

Lemma Forall_yielded (t : list event) :
  Forall P t -> Forall (fun p => P (Yield p)) (yielded t).
Proof.
  induction 1 as [| [l f a | u ps | p] t Hev _ IH]; cbn; auto.
Qed.

End TraceInvariant.

Lemma In_chunked {A} (n : nat) (l c : list A) (x : A) :
  (0 < n)%nat -> In c (chunked l n) -> In x c -> In x l.
Proof.
  intros Hn Hc Hx. rewrite <- (proj1 (chunked_partition n l Hn)).
  apply in_concat. eauto.
Qed.

Lemma In_coros_of (lo hi a : Z) (v : value) :
  In (a, v) (coros_of lo hi) -> v = PyInt a /\ lo <= a < hi.
Proof.
  unfold coros_of. rewrite in_map_iff. intros [p [E Hp]].
  injection E as <- <-. apply In_range in Hp. auto.
Qed.

Section CrawlInvariant.

Variables (w : World) (self : HfrCovid19).

Lemma parse_page_good_records (content : value) (posts : list HfrPost) (p : HfrPost) :
  parse_page w content = Ok posts -> In p posts -> good_record p.
Proof.
  intros H Hin. apply parse_page_ok_text in H. destruct H as [text [-> H]].
  destruct (parse_posts_In _ _ _ _ H Hin) as [[] | [b [_ Hp]]].
  apply parse_post_record in Hp. unfold good_record. tauto.
Qed.

Lemma send_invariant (bound p : Z) :
  1 <= p <= bound ->
  Forall (crawl_event self bound) (trace (get_page_content_send self (PyInt p))).
Proof.
  intro Hp. unfold get_page_content_send. cbn.
  destruct (0 <? p); cbn; [| apply Forall_nil].
  apply Forall_cons; [| apply Forall_nil].
  split; [reflexivity | now exists p].
Qed.

Lemma resume_invariant (bound : Z) (k : nat) (number : value) :
  Forall (crawl_event self bound)
         (trace (get_page_content_resume w self k number)).
Proof.
  unfold get_page_content_resume.
  destruct (http_get w k page_url (page_params self number)); cbn;
    repeat apply Forall_cons; try apply Forall_nil; exact I.
Qed.

Lemma discovery_invariant (bound : Z) :
  1 <= bound ->
  Forall (crawl_event self bound) (trace (get_total_page_count w self)).
Proof.
  intro Hb. rewrite get_total_page_count_cases.
  assert (R : crawl_event self bound (HttpGet page_url (page_params self (PyInt 1)))).
  { split; [reflexivity |]. exists 1. split; [lia | reflexivity]. }
  destruct (fetch w self 0 1) as [page_1 | e];
    [| cbn [trace fst]; repeat apply Forall_cons; try apply Forall_nil; exact R].
  destruct (rmap Str.int (filter Str.isdigit (page_headers w page_1)))
    as [[| x l] | e]; cbn [trace fst];
    repeat apply Forall_cons; try apply Forall_nil; try exact R; exact I.
Qed.

Lemma emit_page_invariant (bound : Z) (pages : list Z) (ic : nat * string) :
  Forall (crawl_event self bound) (trace (emit_page w pages ic)).
Proof.
  destruct ic as [idx content]. unfold emit_page.
  apply Forall_trace_bind; [apply Forall_nil |]. intros posts Hposts.
  apply Forall_trace_bind; [apply Forall_nil |]. intros page _.
  apply Forall_trace_bind;
    [apply Forall_cons; [exact I | apply Forall_nil] |]. intros _ _.
  apply Forall_trace_for_each. intros p Hp. cbn.
  apply Forall_cons; [| apply Forall_nil].
  exact (parse_page_good_records _ _ _ Hposts Hp).
Qed.

Lemma process_group_invariant (bound : Z) (k : nat) (chunk : list (Z * value)) :
  (forall a v, In (a, v) chunk -> v = PyInt a /\ 1 <= a <= bound) ->
  Forall (crawl_event self bound) (trace (process_group w self (k, chunk))).
Proof.
  intro Hchunk. unfold process_group. apply Forall_trace_bind.
  - unfold gather. apply Forall_trace_bind.
    + apply Forall_trace_for_each. intros n Hn.
      apply in_map_iff in Hn. destruct Hn as [[a v] [<- Hav]].
      destruct (Hchunk a v Hav) as [-> Ha]. now apply send_invariant.
    + intros _ _. apply Forall_trace_bind; [| intros; apply Forall_nil].
      apply Forall_trace_for_each. intros n _.
      apply Forall_trace_bind; [apply resume_invariant | intros; apply Forall_nil].
  - intros contents _. apply Forall_trace_for_each. intros ic _.
    apply emit_page_invariant.
Qed.

Lemma crawl_invariant :
  Forall (crawl_event self (page_bound w self)) (trace (parse_all_pages w self)).
Proof.
  rewrite parse_all_pages_unfold. unfold page_bound.
  apply Forall_trace_bind.
  - apply discovery_invariant. destruct (outcome _); lia.
  - intros max_page Hmax. rewrite Hmax. unfold run_groups.
    apply Forall_trace_for_each. intros [k chunk] Hk.
    apply in_combine_r in Hk. apply process_group_invariant.
    intros a v Hav.
    destruct (In_coros_of 1 (max_page + 1) a v) as [Hv Ha];
      [exact (In_chunked 100 _ chunk _ ltac:(lia) Hk Hav) |].
    split; [exact Hv | lia].
Qed.

End CrawlInvariant.

(** X5. Whatever the server answers and whether the crawl succeeds or
    fails, every request it sends goes to the forum's page address with the
    crawler's own category, sub-category and topic, for a page number that
    is at least 1 and at most the discovered page count (page 1 for the
    discovery itself). *)
Theorem crawl_requests_own_pages (w : World) (self : HfrCovid19) :
  Forall (own_request self (page_bound w self))
         (requests (trace (parse_all_pages w self))).
Proof.
  pose proof (Forall_requests _ _ (crawl_invariant w self)) as H.
  apply (Forall_impl _ (P := fun r => crawl_event self (page_bound w self)
                                        (HttpGet (fst r) (snd r)))); [| exact H].
  intros r Hr. exact Hr.
Qed.

(** X6. Whatever the server answers and whether the crawl succeeds or
    fails, every record it yields has a timestamp in the zone of Paris
    with a real date and time, and an author that is not the advertisement
    sentinel: no advertisement reaches the consumer. *)
Theorem crawl_yields_good_records (w : World) (self : HfrCovid19) :
  Forall good_record (yielded (trace (parse_all_pages w self))).
Proof.
  pose proof (Forall_yielded _ _ (crawl_invariant w self)) as H.
  apply (Forall_impl _ (P := fun p => crawl_event self (page_bound w self) (Yield p)));
    [| exact H].
  intros p Hp. exact Hp.
Qed.

(** ** The requests of a crawl *)

Lemma requests_app (t1 t2 : list event) :
  requests (t1 ++ t2) = requests t1 ++ requests t2.
Proof.
  induction t1 as [| [l f a | u ps | p] t1 IH]; cbn; [reflexivity | | |];
    now rewrite IH.
Qed.

Lemma requests_map_Log {A} (lv : level) (f : string) (g : A -> list value)
    (l : list A) :
  requests (map (fun x => Log lv f (g x)) l) = [].
Proof. induction l; cbn; auto. Qed.

Lemma requests_map_Yield (posts : list HfrPost) : requests (map Yield posts) = [].
Proof. induction posts; cbn; auto. Qed.

Lemma requests_discovery (w : World) (self : HfrCovid19) :
  requests (trace (get_total_page_count w self)) = [request_for self 1].
Proof.
  rewrite get_total_page_count_cases.
  destruct (fetch w self 0 1) as [page_1 | e]; [| reflexivity].
  destruct (rmap Str.int (filter Str.isdigit (page_headers w page_1)))
    as [[| x l] | e]; reflexivity.
Qed.

Section Requests.

Variables (w : World) (self : HfrCovid19).

Lemma requests_group_trace (k : nat) (g : list Z) :
  requests (group_trace w self k g) = map (request_for self) g.
Proof.
  unfold group_trace. rewrite !requests_app, requests_map_Log.
  assert (E : requests (flat_map
                (fun p => Log INFO "Got %d post for page %d"
                            [PyInt (Z.of_nat (length (page_posts w self p))); PyInt p]
                          :: map Yield (page_posts w self p)) g) = []).
  { induction g as [| p g IH]; [reflexivity |].
    cbn [flat_map]. rewrite requests_app. cbn. now rewrite requests_map_Yield, IH. }
  rewrite E, app_nil_r. clear E.
  induction g as [| p g IH]; cbn; [reflexivity | now rewrite IH].
Qed.

Lemma requests_crawl_trace_from (n : nat) (r : nat) (lo hi : Z) :
  hi - lo <= 100 * Z.of_nat n ->
  requests (crawl_trace_from w self r lo hi) = map (request_for self) (range lo hi).
Proof.
  revert r lo. induction n as [| n IH]; intros r lo H.
  - now rewrite crawl_trace_from_nil, range_nil by lia.
  - destruct (Z_le_gt_dec hi lo) as [Hle | Hgt].
    + now rewrite crawl_trace_from_nil, range_nil by lia.
    + rewrite crawl_trace_from_cons, requests_app, requests_group_trace, IH by lia.
      rewrite <- map_app. f_equal.
      destruct (Z_le_gt_dec (lo + 100) hi).
      * rewrite Z.min_l by lia. symmetry. apply range_app. lia.
      * rewrite Z.min_r, (range_nil (lo + 100) hi) by lia. apply app_nil_r.
Qed.

End Requests.

(** X7. A crawl in which nothing fails sends exactly [max_page] + 1
    requests: one for page 1, by the discovery, and then one for each of
    the pages 1 to [max_page], in ascending order.  Page 1 is fetched
    twice. *)
Theorem successful_crawl_requests
    (w : World) (self : HfrCovid19) (max_page : Z) (t0 : list event) :
  completes w ->
  get_total_page_count w self = (t0, Ok max_page) ->
  (forall p, 1 <= p <= max_page -> page_good w self p) ->
  requests (trace (parse_all_pages w self))
    = map (request_for self) (1 :: range 1 (max_page + 1))
  /\ length (requests (trace (parse_all_pages w self))) = S (Z.to_nat max_page).
Proof.
  intros Hc Hdisc Hgood.
  assert (E : requests (trace (parse_all_pages w self))
              = map (request_for self) (1 :: range 1 (max_page + 1))).
  { rewrite parse_all_pages_unfold, (bind_ok _ _ _ _ Hdisc).
    destruct (crawl_cases w self Hc (Z.to_nat max_page) 0 1 (max_page + 1))
      as [[_ Hm] | [f [e [n [Hf [Hfail _]]]]]]; [lia | lia | |].
    - rewrite Hm. cbn [trace fst]. rewrite requests_app.
      replace t0 with (trace (get_total_page_count w self)) by now rewrite Hdisc.
      rewrite requests_discovery.
      now rewrite (requests_crawl_trace_from w self (Z.to_nat max_page)) by lia.
    - exfalso. destruct (Hgood f) as [posts Hp]; [lia |].
      unfold page_failure in Hfail. congruence. }
  split; [exact E |].
  rewrite E, length_map. cbn [length]. rewrite length_range. f_equal. lia.
Qed.

(** ** The groups, explicitly *)

Lemma groups_from_formula (n : nat) (lo hi : Z) :
  hi - lo <= 100 * Z.of_nat n ->
  groups_from lo hi
  = map (fun k => range (lo + 100 * Z.of_nat k)
                        (Z.min (lo + 100 * Z.of_nat k + 100) hi))
        (seq 0 (Z.to_nat ((hi - lo + 99) / 100))).
Proof.
  revert lo. induction n as [| n IH]; intros lo H.
  - rewrite groups_from_nil by lia.
    replace (Z.to_nat ((hi - lo + 99) / 100)) with 0%nat; [reflexivity |].
    assert ((hi - lo + 99) / 100 < 1) by (apply Z.div_lt_upper_bound; lia). lia.
  - destruct (Z_le_gt_dec hi lo) as [Hle | Hgt].
    + rewrite groups_from_nil by lia.
      replace (Z.to_nat ((hi - lo + 99) / 100)) with 0%nat; [reflexivity |].
      assert ((hi - lo + 99) / 100 < 1) by (apply Z.div_lt_upper_bound; lia). lia.
    + rewrite groups_from_cons, IH by lia.
      assert (Hq : (hi - lo + 99) / 100 = (hi - (lo + 100) + 99) / 100 + 1).
      { replace (hi - lo + 99) with (hi - (lo + 100) + 99 + 1 * 100) by lia.
        apply Z.div_add. lia. }
      assert (0 <= (hi - (lo + 100) + 99) / 100) by (apply Z.div_pos; lia).
      rewrite Hq.
      replace (Z.to_nat ((hi - (lo + 100) + 99) / 100 + 1))
        with (S (Z.to_nat ((hi - (lo + 100) + 99) / 100))) by lia.
      cbn [seq map]. f_equal.
      * f_equal; lia.
      * rewrite <- seq_shift, map_map. apply map_ext. intro k.
        f_equal; [| f_equal]; lia.
Qed.

(** X8. The groups of a topic of [max_page] pages are, for k from 0 up to
    but not including the number of hundreds in [max_page] rounded up, the
    pages 100k + 1 to 100k + 100, cut at [max_page] for the last group. *)
Theorem groups_formula (max_page : Z) :
  groups max_page
  = map (fun k => range (100 * Z.of_nat k + 1)
                        (Z.min (100 * Z.of_nat k + 101) (max_page + 1)))
        (seq 0 (Z.to_nat ((max_page + 99) / 100)))
  /\ length (groups max_page) = Z.to_nat ((max_page + 99) / 100).
Proof.
  assert (E : groups max_page
              = map (fun k => range (100 * Z.of_nat k + 1)
                                 (Z.min (100 * Z.of_nat k + 101) (max_page + 1)))
                    (seq 0 (Z.to_nat ((max_page + 99) / 100)))).
  { unfold groups. change (chunked (range 1 (max_page + 1)) 100)
      with (groups_from 1 (max_page + 1)).
    rewrite (groups_from_formula (Z.to_nat max_page)) by lia.
    replace (max_page + 1 - 1 + 99) with (max_page + 99) by lia.
    apply map_ext. intro k. f_equal; [| f_equal]; lia. }
  split; [exact E |]. now rewrite E, length_map, length_seq.
Qed.

(** ** The order of arrival does not show *)

Lemma same_view_refl (m : M unit) : same_view m m.
Proof. split; reflexivity. Qed.

Lemma same_view_bind (m1 m2 : M unit) (k1 k2 : unit -> M unit) :
  same_view m1 m2 -> same_view (k1 tt) (k2 tt) ->
  same_view (bind m1 k1) (bind m2 k2).
Proof.
  unfold same_view.
  destruct m1 as [t1 [[] | e1]], m2 as [t2 [[] | e2]];
    intros [Hy Ho] [Hy' Ho']; cbn in *; try discriminate.
  - destruct (k1 tt) as [t1' r1], (k2 tt) as [t2' r2]. cbn in *.
    split; [rewrite !yielded_app; congruence | exact Ho'].
  - split; [exact Hy | reflexivity].
Qed.

Lemma for_each_ext {A} (l : list A) (f g : A -> M unit) :
  (forall x, In x l -> f x = g x) -> for_each l f = for_each l g.
Proof.
  induction l as [| x l IH]; intro H; [reflexivity |].
  cbn [for_each]. apply bind_unit_eq; [apply H; now left |].
  apply IH. intros y Hy. apply H. now right.
Qed.

Section Arrival.

Variables (w1 w2 : World) (self : HfrCovid19).
Hypothesis Hget : http_get w2 = http_get w1.
Hypothesis Hmt : messagetable w2 = messagetable w1.
Hypothesis Hph : page_headers w2 = page_headers w1.
Hypothesis Hc1 : completes w1.
Hypothesis Hc2 : completes w2.

Lemma fetch_same (k : nat) (p : Z) : fetch w2 self k p = fetch w1 self k p.
Proof. unfold fetch. now rewrite Hget. Qed.

Lemma page_text_same (p : Z) : page_text w2 self p = page_text w1 self p.
Proof. unfold page_text. now rewrite fetch_same. Qed.

Lemma page_step_same (p : Z) : page_step w2 self p = page_step w1 self p.
Proof. unfold page_step, parse_page. now rewrite page_text_same, Hmt. Qed.

Lemma discovery_same : get_total_page_count w2 self = get_total_page_count w1 self.
Proof. rewrite !get_total_page_count_cases. now rewrite fetch_same, Hph. Qed.

Lemma group_same (j : nat) (lo mid : Z) :
  lo = 100 * Z.of_nat j + 1 -> lo < mid <= lo + 100 ->
  same_view (process_group w1 self (S j, coros_of lo mid))
            (process_group w2 self (S j, coros_of lo mid)).
Proof.
  intros Hlo Hmid. unfold process_group.
  rewrite coros_of_fst, coros_of_snd.
  assert (Hround : forall p, lo <= p < mid -> round_of p = S j)
    by (intros; apply round_of_group; lia).
  assert (Hpos : forall p, In p (range lo mid) -> 0 < p)
    by (intros p Hp; apply In_range in Hp; lia).
  destruct (forallb (fun p => is_ok (fetch w1 self (S j) p)) (range lo mid)) eqn:Eall.
  - assert (Hf1 : forall p, In p (range lo mid) ->
              fetch w1 self (S j) p = Ok (page_text w1 self p)).
    { intros p Hp. rewrite forallb_forall in Eall. specialize (Eall p Hp).
      apply In_range in Hp. unfold page_text. rewrite (Hround p Hp).
      now destruct (fetch w1 self (S j) p). }
    assert (Hf2 : forall p, In p (range lo mid) ->
              fetch w2 self (S j) p = Ok (page_text w2 self p)).
    { intros p Hp. rewrite fetch_same, page_text_same. now apply Hf1. }
    rewrite (bind_ok _ _ _ _ (gather_ok w1 self Hc1 (S j) _ _ Hpos Hf1)).
    rewrite (bind_ok _ _ _ _ (gather_ok w2 self Hc2 (S j) _ _ Hpos Hf2)).
    pose proof (enumerate_loop w1 self (range lo mid) []) as L1.
    pose proof (enumerate_loop w2 self (range lo mid) []) as L2.
    cbn [length app] in L1, L2. unfold enumerate. cbn beta. rewrite L1, L2.
    rewrite (for_each_ext _ (page_step w2 self) (page_step w1 self))
      by (intros; apply page_step_same).
    split; cbn [trace outcome fst snd]; [| reflexivity].
    rewrite !yielded_app, !yielded_map_HttpGet, !yielded_map_Log. reflexivity.
  - apply forallb_false in Eall. destruct Eall as [p0 [Hp0 Hbad]].
    destruct (fetch w1 self (S j) p0) as [text | e0] eqn:E0; [discriminate |].
    destruct (gather_raised w1 self Hc1 (S j) _ p0 e0 Hpos Hp0 E0)
      as [p1 [e1 [_ [_ [Ho1 Hy1]]]]].
    assert (E0' : fetch w2 self (S j) p0 = Raised e0) by now rewrite fetch_same.
    destruct (gather_raised w2 self Hc2 (S j) _ p0 e0 Hpos Hp0 E0')
      as [p2 [e2 [_ [_ [Ho2 Hy2]]]]].
    rewrite (bind_raised _ _ (trace (gather w1 self (S j) (map PyInt (range lo mid)))) e1)
      by (rewrite <- Ho1; apply M_eta).
    rewrite (bind_raised _ _ (trace (gather w2 self (S j) (map PyInt (range lo mid)))) e2)
      by (rewrite <- Ho2; apply M_eta).
    split; cbn [trace outcome fst snd]; [congruence | reflexivity].
Qed.

Lemma groups_same (n : nat) (j : nat) (lo hi : Z) :
  lo = 100 * Z.of_nat j + 1 -> hi - lo <= 100 * Z.of_nat n ->
  same_view (run_groups w1 self (S j) (chunked (coros_of lo hi) 100))
            (run_groups w2 self (S j) (chunked (coros_of lo hi) 100)).
Proof.
  revert j lo. induction n as [| n IH]; intros j lo Hlo Hn.
  - rewrite chunked_coros_nil by lia. apply same_view_refl.
  - destruct (Z_le_gt_dec hi lo) as [Hle | Hgt].
    { rewrite chunked_coros_nil by lia. apply same_view_refl. }
    rewrite chunked_coros_cons by lia.
    apply (same_view_bind
             (process_group w1 self (S j, coros_of lo (Z.min (lo + 100) hi)))
             (process_group w2 self (S j, coros_of lo (Z.min (lo + 100) hi)))
             (fun _ => run_groups w1 self (S (S j)) (chunked (coros_of (lo + 100) hi) 100))
             (fun _ => run_groups w2 self (S (S j)) (chunked (coros_of (lo + 100) hi) 100))).
    + apply group_same; lia.
    + apply IH; lia.
Qed.

Lemma crawl_same : same_view (parse_all_pages w1 self) (parse_all_pages w2 self).
Proof.
  rewrite !parse_all_pages_unfold, discovery_same.
  destruct (get_total_page_count w1 self) as [t0 [max_page | e]] eqn:Ed.
  - rewrite !(bind_ok _ _ t0 max_page) by reflexivity.
    destruct (groups_same (Z.to_nat max_page) 0 1 (max_page + 1)) as [Hy Ho];
      [lia | lia |].
    split; cbn [trace outcome fst snd]; [| exact Ho].
    rewrite !yielded_app. now f_equal.
  - apply same_view_refl.
Qed.

End Arrival.

(** X9. The order in which the answers of a group arrive does not show in
    what the consumer receives: with the same server and the same pages,
    two orders of arrival give the same records in the same order, and the
    crawl ends with an exception under one exactly when it does under the
    other. *)
Theorem arrival_order_does_not_show
    (w : World) (self : HfrCovid19) (c : nat -> list value -> list value) :
  completes w -> completes (with_completion w c) ->
  yielded (trace (parse_all_pages w self))
    = yielded (trace (parse_all_pages (with_completion w c) self))
  /\ is_ok (outcome (parse_all_pages w self))
     = is_ok (outcome (parse_all_pages (with_completion w c) self)).
Proof.
  intros H1 H2.
  exact (crawl_same w (with_completion w c) self eq_refl eq_refl eq_refl H1 H2).
Qed.

(** ** A crawl without pages *)

Lemma decimal_acc_nonneg (s : string) (acc : Z) :
  0 <= acc -> Str.all_chars Str.is_ascii_digit s = true ->
  0 <= Str.decimal_acc acc s.
Proof.
  revert acc. induction s as [| c s IH]; intros acc Hacc H;
    cbn [Str.all_chars Str.decimal_acc] in *; [exact Hacc |].
  apply andb_true_iff in H. destruct H as [Hc Hs].
  apply IH; [| exact Hs]. apply digit_value_range in Hc. lia.
Qed.

Lemma rmap_int_nonneg (labels : list string) (numbers : list Z) :
  rmap Str.int labels = Ok numbers -> Forall (fun n => 0 <= n) numbers.
Proof.
  revert numbers. induction labels as [| s labels IH]; intros numbers H; cbn in H.
  - injection H as <-. constructor.
  - unfold Str.int at 1 in H.
    destruct (negb (String.eqb s "") && Str.all_chars Str.is_ascii_digit s
              && (Z.of_nat (String.length s) <=? Str.max_str_digits)) eqn:E;
      [| discriminate].
    cbn in H. destruct (rmap Str.int labels) as [ns |]; [| discriminate].
    injection H as <-. apply andb_true_iff in E. destruct E as [E _].
    apply andb_true_iff in E. destruct E as [_ E].
    constructor; [apply decimal_acc_nonneg; [lia | exact E] | now apply IH].
Qed.

(** X10. The discovery sends one request, for page 1, whatever its outcome.
    A page count it returns is never negative.  When it raises, the crawl
    raises the same exception, and when it returns 0 the crawl ends without
    an exception: in both cases the crawl has done nothing but the
    discovery. *)
Theorem crawl_without_pages (w : World) (self : HfrCovid19) :
  requests (trace (get_total_page_count w self)) = [request_for self 1]
  /\ match outcome (get_total_page_count w self) with
     | Ok max_page =>
         0 <= max_page
         /\ (max_page = 0 ->
             parse_all_pages w self
               = (trace (get_total_page_count w self), Ok tt))
     | Raised e =>
         parse_all_pages w self
           = (trace (get_total_page_count w self), Raised e)
     end.
Proof.
  split; [apply requests_discovery |].
  destruct (get_total_page_count w self) as [t0 [max_page | e]] eqn:Ed;
    cbn [outcome trace fst snd].
  - split.
    + rewrite get_total_page_count_cases in Ed.
      destruct (fetch w self 0 1) as [page_1 | e]; [| discriminate].
      destruct (rmap Str.int (filter Str.isdigit (page_headers w page_1)))
        as [[| x l] | e] eqn:Er; try discriminate.
      injection Ed as _ <-. apply rmap_int_nonneg in Er.
      inversion Er as [| x' l' Hx _]; subst.
      pose proof (proj1 (max_of_ge x l)). lia.
    + intros ->. rewrite parse_all_pages_unfold, (bind_ok _ _ _ _ Ed).
      cbn. now rewrite app_nil_r.
  - rewrite parse_all_pages_unfold. now rewrite (bind_raised _ _ _ _ Ed).
Qed.

(** X11. With pagination labels written with the digits 0 to 9, none
    longer than the 4300 digits [int] converts, the discovery returns the
    greatest of the numeric labels, which is one of them, and raises its
    [AssertionError] when no label is numeric. *)
Theorem page_count_is_greatest_label
    (w : World) (self : HfrCovid19) (page_1 : string) :
  fetch w self 0 1 = Ok page_1 ->
  (forall s, In s (page_headers w page_1) -> Str.isdigit s = true ->
             Str.all_chars Str.is_ascii_digit s = true
             /\ Z.of_nat (String.length s) <= Str.max_str_digits) ->
  let numbers :=
    map (Str.decimal_acc 0) (filter Str.isdigit (page_headers w page_1)) in
  (numbers = []
   /\ outcome (get_total_page_count w self)
      = Raised (AssertionError
          "Unable to parse .fondForum2PagesHaut .cHeader to extract max page number"))
  \/ (exists max_page,
        outcome (get_total_page_count w self) = Ok max_page
        /\ In max_page numbers /\ forall n, In n numbers -> n <= max_page).
Proof.
  intros Hfetch Hdec numbers.
  rewrite get_total_page_count_cases, Hfetch, (rmap_int_decimal _ Hdec).
  fold numbers. destruct numbers as [| x l]; [left; split; reflexivity |].
  right. exists (max_of x l). split; [reflexivity |]. split; [apply max_of_In |].
  intros n [<- | Hn];
    [apply (proj1 (max_of_ge x l)) | now apply (proj2 (max_of_ge x l))].
Qed.

(** ** The script *)

Section Script.

Variables (w : World) (strftime : datetime -> string).

Lemma hbind_ok {A B} (m : Host A) (k : A -> Host B) (t : list host_event) (a : A) :
  m = (t, Ok a) -> hbind m k = (t ++ fst (k a), snd (k a)).
Proof. intros ->. unfold hbind. now destruct (k a). Qed.

Lemma writes_app (t1 t2 : list host_event) : writes (t1 ++ t2) = writes t1 ++ writes t2.
Proof.
  induction t1 as [| [] t1 IH]; cbn; try assumption; [reflexivity |].
  now rewrite IH.
Qed.

Lemma root_logs_app (t1 t2 : list host_event) :
  root_logs (t1 ++ t2) = root_logs t1 ++ root_logs t2.
Proof.
  induction t1 as [| [] t1 IH]; cbn; try assumption; [reflexivity |].
  now rewrite IH.
Qed.

Lemma write_row_eq (row_idx : Z) (p : HfrPost) :
  write_row strftime row_idx p
  = ([WorksheetWrite row_idx 0 (author_value p);
      WorksheetWrite row_idx 1 (PyStr (strftime (timestamp p)))],
     Ok (row_idx + 1)).
Proof. reflexivity. Qed.

(** The loop of [main] over the events of a crawl: it never raises, it
    writes the rows of the records from the current row on, and it leaves
    the row index advanced by the number of records. *)
Lemma consume_rows (t : list event) (row_idx : Z) :
  snd (consume t (write_row strftime) row_idx)
    = Ok (row_idx + Z.of_nat (length (yielded t)))
  /\ writes (fst (consume t (write_row strftime) row_idx))
     = sheet_rows strftime row_idx (yielded t)
  /\ root_logs (fst (consume t (write_row strftime) row_idx)) = []
  /\ forallb (fun ev => negb (is_closing ev))
             (fst (consume t (write_row strftime) row_idx)) = true.
Proof.
  revert row_idx. induction t as [| ev t IH]; intro row_idx.
  - cbn. repeat split; f_equal; lia.
  - destruct ev as [l f a | u ps | p]; cbn [consume yielded].
    + destruct (IH row_idx) as [Ho [Hw [Hl Hc]]].
      destruct (consume t (write_row strftime) row_idx) as [t' r]. cbn in *.
      repeat split; assumption.
    + destruct (IH row_idx) as [Ho [Hw [Hl Hc]]].
      destruct (consume t (write_row strftime) row_idx) as [t' r]. cbn in *.
      repeat split; assumption.
    + destruct (IH (row_idx + 1)) as [Ho [Hw [Hl Hc]]].
      rewrite write_row_eq. cbn [hbind hemit app].
      destruct (consume t (write_row strftime) (row_idx + 1)) as [t' r].
      cbn [fst snd length writes root_logs forallb is_closing negb andb sheet_rows] in *.
      split; [rewrite Ho; f_equal; lia |].
      split; [now rewrite Hw |]. split; assumption.
Qed.

Let gen : M unit := parse_all_pages w default_crawler.
Let served : list host_event := fst (consume (trace gen) (write_row strftime) 0).
Let count : Z := Z.of_nat (length (yielded (trace gen))).

(** The whole trace and the outcome of [main]. *)
Lemma main_cases :
  main w strftime
  = (OfCrawler (Log INFO "Initialized on cat=%d, subcat=%d, post=%d"
                  [PyInt 13; PyInt 422; PyInt 118532])
     :: WorkbookOpen workbook_path
     :: RootLog INFO "Writing results to ./posts_parsed.xlsx" []
     :: served
     ++ (if is_ok (outcome gen)
         then [RootLog INFO "%d posts written to ./posts_parsed.xlsx"
                 [PyInt (count + 1)]]
         else [])
     ++ [WorkbookClose; ClientClose;
         OfCrawler (Log INFO "Shut down successfully" [])],
     outcome gen).
Proof.
  pose proof (consume_rows (trace gen) 0) as [Ho _].
  unfold main, async_for.
  change (__init__ (PyInt 13) (PyInt 422) (PyInt 118532))
    with ([Log INFO "Initialized on cat=%d, subcat=%d, post=%d"
             [PyInt 13; PyInt 422; PyInt 118532]], Ok default_crawler).
  cbn [of_crawler hbind hemit map app trace outcome fst snd].
  unfold served, count, gen, trace, outcome in *.
  destruct (parse_all_pages w default_crawler) as [tg rg]. cbn [fst snd] in *.
  destruct (consume tg (write_row strftime) 0) as [ts rs]. cbn [fst snd] in *.
  subst rs. destruct rg as [[] | e]; cbn; rewrite ?app_nil_r, <- ?app_assoc; reflexivity.
Qed.

End Script.

(** X12. Whatever the crawl does, the script writes one row per record it
    received, in the order received and from row 0 on without a gap: the
    author in column 0 and the formatted timestamp in column 1; it writes
    nothing else. *)
Theorem main_writes_one_row_per_record
    (w : World) (strftime : datetime -> string) :
  writes (fst (main w strftime))
  = sheet_rows strftime 0
      (yielded (trace (parse_all_pages w default_crawler))).
Proof.
  rewrite main_cases. cbn [fst writes].
  rewrite !writes_app.
  rewrite (proj1 (proj2 (consume_rows strftime _ 0))).
  destruct (is_ok _); cbn; now rewrite app_nil_r.
Qed.

(** X13. On every path the script ends by closing the workbook, then the
    client, then logging the shutdown, each exactly once and after
    everything else; and the exception of a failed crawl still comes out
    of the script. *)
Theorem main_always_closes (w : World) (strftime : datetime -> string) :
  exists before,
    fst (main w strftime)
      = before ++ [WorkbookClose; ClientClose;
                   OfCrawler (Log INFO "Shut down successfully" [])]
    /\ forallb (fun ev => negb (is_closing ev)) before = true
    /\ snd (main w strftime) = outcome (parse_all_pages w default_crawler).
Proof.
  rewrite main_cases. cbn [fst snd].
  exists (OfCrawler (Log INFO "Initialized on cat=%d, subcat=%d, post=%d"
                       [PyInt 13; PyInt 422; PyInt 118532])
          :: WorkbookOpen workbook_path
          :: RootLog INFO "Writing results to ./posts_parsed.xlsx" []
          :: fst (consume (trace (parse_all_pages w default_crawler))
                          (write_row strftime) 0)
          ++ (if is_ok (outcome (parse_all_pages w default_crawler))
              then [RootLog INFO "%d posts written to ./posts_parsed.xlsx"
                      [PyInt (Z.of_nat (length (yielded (trace
                                (parse_all_pages w default_crawler)))) + 1)]]
              else [])).
  split.
  - cbn [app]. now rewrite <- app_assoc.
  - split; [| reflexivity]. cbn [forallb is_closing negb andb].
    rewrite forallb_app.
    rewrite (proj2 (proj2 (proj2 (consume_rows strftime _ 0)))).
    destruct (is_ok _); reflexivity.
Qed.

(** X14. The root logger receives the announcement of the file and, only
    when the crawl ended without an exception, one line with a count; the
    count logged is the number of rows written plus one. *)
Theorem main_logs_count_plus_one (w : World) (strftime : datetime -> string) :
  root_logs (fst (main w strftime))
  = ("Writing results to ./posts_parsed.xlsx", [])
    :: (if is_ok (outcome (parse_all_pages w default_crawler))
        then [("%d posts written to ./posts_parsed.xlsx",
               [PyInt (Z.of_nat (length (yielded (trace (parse_all_pages w default_crawler))))
                       + 1)])]
        else []).
Proof.
  rewrite main_cases. cbn [fst root_logs]. rewrite !root_logs_app.
  rewrite (proj1 (proj2 (proj2 (consume_rows strftime _ 0)))).
  destruct (is_ok _); reflexivity.
Qed.

(** ** The further properties at work on the example pages *)

(** A toolbar that matches the pattern with the 30th of February. *)
Example february_30_is_a_value_error :
  parse_post (mk_MessageBlock (Some "toto") (Some toolbar_february_30))
    = Raised ValueError.
Proof. vm_compute. reflexivity. Qed.

Lemma parse_page_first_failure_witness :
  page_no_toolbar <> ""
  /\ messagetable further_world page_no_toolbar
     = [block_toto] ++ block_no_toolbar :: []
  /\ parse_posts [block_toto] [] = Ok [post_toto]
  /\ parse_post block_no_toolbar = Raised TypeError
  /\ parse_page further_world (PyStr page_no_toolbar) = Raised TypeError.
Proof.
  assert (H1 : page_no_toolbar <> "") by (intro H; vm_compute in H; discriminate H).
  assert (H2 : messagetable further_world page_no_toolbar
               = [block_toto] ++ block_no_toolbar :: []) by (vm_compute; reflexivity).
  assert (H3 : parse_posts [block_toto] [] = Ok [post_toto]) by (vm_compute; reflexivity).
  assert (H4 : parse_post block_no_toolbar = Raised TypeError) by reflexivity.
  repeat (split; [assumption |]).
  exact (proj1 (parse_page_first_failure further_world page_no_toolbar block_no_toolbar
                  [block_toto] [] [post_toto] TypeError H1 H2 H3 H4)).
Defined.

Lemma matched_toolbar_outcome_witness :
  is_advertisement (s2_html block_toto) = false
  /\ toolbar_left_html block_toto = Some toolbar_example
  /\ Re.search toolbar_example = Some ("15-03-2020", "14:30:05")
  /\ exists d m y H Mi Se,
       Time.fields ("15-03-2020" ++ " " ++ "14:30:05") = Some (d, m, y, H, Mi, Se)
       /\ ((real_instant y m d H Mi Se /\ ~ edge_day y m d
            /\ parse_post block_toto
               = Ok (Some (mk_HfrPost (s2_html block_toto)
                             (mk_datetime y m d H Mi Se (Some "Europe/Paris")))))
           \/ (real_instant y m d H Mi Se /\ edge_day y m d
               /\ parse_post block_toto = Raised OverflowError)
           \/ (~ real_instant y m d H Mi Se
               /\ parse_post block_toto = Raised ValueError)).
Proof.
  assert (H1 : is_advertisement (s2_html block_toto) = false) by reflexivity.
  assert (H2 : toolbar_left_html block_toto = Some toolbar_example) by reflexivity.
  assert (H3 : Re.search toolbar_example = Some ("15-03-2020", "14:30:05"))
    by (vm_compute; reflexivity).
  repeat (split; [assumption |]).
  exact (matched_toolbar_outcome block_toto toolbar_example
           "15-03-2020" "14:30:05" H1 H2 H3).
Defined.

Lemma successful_crawl_requests_witness :
  completes (world_serving page_long_topic)
  /\ get_total_page_count (world_serving page_long_topic) default_crawler
     = (trace (get_total_page_count (world_serving page_long_topic) default_crawler),
        Ok 250)
  /\ (forall p, 1 <= p <= 250 ->
        page_good (world_serving page_long_topic) default_crawler p)
  /\ length (requests (trace (parse_all_pages (world_serving page_long_topic)
                                default_crawler)))
     = S (Z.to_nat 250).
Proof.
  assert (H1 : completes (world_serving page_long_topic)) by apply rev_completes.
  assert (H2 : get_total_page_count (world_serving page_long_topic) default_crawler
               = (trace (get_total_page_count (world_serving page_long_topic)
                           default_crawler), Ok 250))
    by (vm_compute; reflexivity).
  assert (H3 : forall p, 1 <= p <= 250 ->
                 page_good (world_serving page_long_topic) default_crawler p)
    by (intros p _; exists [post_toto]; vm_compute; reflexivity).
  repeat (split; [assumption |]).
  exact (proj2 (successful_crawl_requests (world_serving page_long_topic)
                  default_crawler 250 _ H1 H2 H3)).
Defined.

Lemma arrival_order_does_not_show_witness :
  completes bad_page_world
  /\ completes (with_completion bad_page_world (fun _ l => l))
  /\ yielded (trace (parse_all_pages bad_page_world default_crawler))
     = yielded (trace (parse_all_pages
                         (with_completion bad_page_world (fun _ l => l))
                         default_crawler)).
Proof.
  assert (H1 : completes bad_page_world) by apply rev_completes.
  assert (H2 : completes (with_completion bad_page_world (fun _ l => l)))
    by (intros k l; apply Permutation_refl).
  repeat (split; [assumption |]).
  exact (proj1 (arrival_order_does_not_show bad_page_world default_crawler
                  (fun _ l => l) H1 H2)).
Defined.

Lemma page_count_is_greatest_label_witness :
  fetch example_world default_crawler 0 1 = Ok page_example
  /\ (forall s, In s (page_headers example_world page_example) ->
        Str.isdigit s = true ->
        Str.all_chars Str.is_ascii_digit s = true
        /\ Z.of_nat (String.length s) <= Str.max_str_digits)
  /\ ((map (Str.decimal_acc 0)
           (filter Str.isdigit (page_headers example_world page_example)) = []
       /\ outcome (get_total_page_count example_world default_crawler)
          = Raised (AssertionError
              "Unable to parse .fondForum2PagesHaut .cHeader to extract max page number"))
      \/ exists max_page,
           outcome (get_total_page_count example_world default_crawler) = Ok max_page
           /\ In max_page
                 (map (Str.decimal_acc 0)
                      (filter Str.isdigit (page_headers example_world page_example)))
           /\ forall n,
                In n (map (Str.decimal_acc 0)
                        (filter Str.isdigit (page_headers example_world page_example))) ->
                n <= max_page).
Proof.
  assert (H1 : fetch example_world default_crawler 0 1 = Ok page_example)
    by reflexivity.
  assert (H2 : forall s, In s (page_headers example_world page_example) ->
                 Str.isdigit s = true ->
                 Str.all_chars Str.is_ascii_digit s = true
                 /\ Z.of_nat (String.length s) <= Str.max_str_digits).
  { intros s Hs Hd. vm_compute in Hs.
    repeat (destruct Hs as [<- | Hs];
            [first [split; [reflexivity | vm_compute; discriminate]
                   | discriminate Hd] |]).
    contradiction. }
  repeat (split; [assumption |]).
  exact (page_count_is_greatest_label example_world default_crawler page_example H1 H2).
Defined.
